(** * authy-to-otpauth: a shallow embedding of [convert.py]

    The development follows the layout of the script:
    - [PyText]: the [str] methods the script calls ([strip], [split],
      [startswith], [join], [islower], [upper], [in]);
    - [Re]: the fragment of the [re] module behind the compiled pattern of
      [strip_issuer_from_name] ([re.escape], [re.compile] under
      [re.IGNORECASE], [Pattern.sub]);
    - [Urllib]: [urllib.parse.quote] with [safe=''];
    - [Convert]: [strip_issuer_from_name], [generate_otpauth_uri] and
      [convert_tokens] themselves, over dynamically typed values and an
      explicit world (files, standard input, log, and the paths that cannot
      be written).

    Python text is represented by [string]; the character classes are the
    ones Python uses on code points below 128.  The upper half of [ascii]
    is read neutrally: caseless, not white space, percent-encoded bytewise;
    Python's own classes differ there and beyond, so the statements that
    depend on white space or on the case of letters are made for text within
    [ascii_text].  In the same way [str] of an integer is the decimal
    numeral, which is what Python prints for the integers within
    [printable]. *)

From Stdlib Require Import ZArith NArith Ascii String List Lia DecimalString.
From stdpp Require Import base option gmap strings list.

Local Set Warnings "-register-all".

(** ** Text *)

Module PyText.

Definition code (c : ascii) : N := N_of_ascii c.

Definition in_range (lo hi : N) (c : ascii) : bool :=
  ((lo <=? code c) && (code c <=? hi))%N.

(** [str.isspace] on one character: TAB..CR, FS..US and SPACE. *)
Definition is_space (c : ascii) : bool :=
  in_range 9 13 c || in_range 28 31 c || in_range 32 32 c.

Definition is_lower (c : ascii) : bool := in_range 97 122 c.
Definition is_upper (c : ascii) : bool := in_range 65 90 c.
Definition is_digit (c : ascii) : bool := in_range 48 57 c.
Definition is_alnum (c : ascii) : bool := is_lower c || is_upper c || is_digit c.

Definition upper (c : ascii) : ascii :=
  if is_lower c then ascii_of_N (code c - 32) else c.

Definition lower (c : ascii) : ascii :=
  if is_upper c then ascii_of_N (code c + 32) else c.

(** [s.lstrip()], [s.rstrip()] and [s.strip()]. *)
Fixpoint lstrip (s : string) : string :=
  match s with
  | String c r => if is_space c then lstrip r else s
  | EmptyString => EmptyString
  end.

Fixpoint rstrip (s : string) : string :=
  match s with
  | String c r =>
      match rstrip r with
      | EmptyString => if is_space c then EmptyString else String c EmptyString
      | r' => String c r'
      end
  | EmptyString => EmptyString
  end.

Definition strip (s : string) : string := rstrip (lstrip s).

Definition push_word (w : string) (ws : list string) : list string :=
  match w with EmptyString => ws | _ => w :: ws end.

(** [s.split()]: the maximal runs of characters that are not white space.
    [split_ws_go] returns the run that is still open at the left end and
    the words to its right. *)
Fixpoint split_ws_go (s : string) : string * list string :=
  match s with
  | EmptyString => (EmptyString, [])
  | String c r =>
      let '(w, ws) := split_ws_go r in
      if is_space c then (EmptyString, push_word w ws) else (String c w, ws)
  end.

Definition split_ws (s : string) : list string :=
  let '(w, ws) := split_ws_go s in push_word w ws.

(** [s.split(sep)] for a one-character separator: empty pieces are kept,
    so the result is never the empty list. *)
Fixpoint split_on_go (sep : ascii) (s : string) : string * list string :=
  match s with
  | EmptyString => (EmptyString, [])
  | String c r =>
      let '(w, ws) := split_on_go sep r in
      if Ascii.eqb c sep then (EmptyString, w :: ws) else (String c w, ws)
  end.

Definition split_on (sep : ascii) (s : string) : list string :=
  let '(w, ws) := split_on_go sep s in w :: ws.

(** [sep.join(parts)]. *)
Definition join (sep : string) (parts : list string) : string :=
  String.concat sep parts.

(** [s.startswith(p)]. *)
Definition startswith (p s : string) : bool := String.prefix p s.

(** [needle in hay]. *)
Fixpoint contains (needle hay : string) : bool :=
  String.prefix needle hay ||
  match hay with
  | EmptyString => false
  | String _ r => contains needle r
  end.

(** [str(n)] for an [int]. *)
Definition str_of_int (z : Z) : string := NilEmpty.string_of_int (Z.to_int z).

(** [s[:n]]. *)
Fixpoint take_chars (n : nat) (s : string) : string :=
  match n, s with
  | S k, String c r => String c (take_chars k r)
  | _, _ => EmptyString
  end.

(** The code points on which the classes above are Python's. *)
Definition is_ascii (c : ascii) : bool := in_range 0 127 c.

Fixpoint ascii_text (s : string) : bool :=
  match s with
  | String c r => is_ascii c && ascii_text r
  | EmptyString => true
  end.

(** The integers [str] converts: at most [sys.int_max_str_digits] decimal
    digits, 4300 unless configured otherwise; beyond that it raises. *)
Definition int_max_str_digits : Z := 4300.

Definition printable (z : Z) : bool := (Z.abs z <? 10 ^ int_max_str_digits)%Z.

End PyText.

(** ** Percent-encoding *)

Module Urllib.
Import PyText.

Definition hex_digit (n : N) : ascii :=
  if (n <? 10)%N then ascii_of_N (48 + n) else ascii_of_N (55 + n).

(** The characters [quote] never encodes: letters, digits and [_.-~]. *)
Definition always_safe (c : ascii) : bool :=
  is_alnum c || Ascii.eqb c "_" || Ascii.eqb c "." || Ascii.eqb c "-"
  || Ascii.eqb c "~".

Definition quote_char (c : ascii) : string :=
  if always_safe c then String c EmptyString
  else String "%" (String (hex_digit (code c / 16))
                     (String (hex_digit (code c mod 16)) EmptyString)).

(** [urllib.parse.quote(s, safe='')]. *)
Fixpoint quote (s : string) : string :=
  match s with
  | EmptyString => EmptyString
  | String c r => quote_char c +:+ quote r
  end.

End Urllib.

(** ** Regular expressions *)

Module Re.
Import PyText.

(** One-character matchers. *)
Inductive atom :=
  | ALit (c : ascii)             (* a literal character *)
  | ASpace                       (* \s *)
  | ASet (items : list atom).    (* [...] *)

Inductive node :=
  | NBegin                       (* ^ *)
  | NAtom (a : atom)
  | NStar (a : atom).            (* a* , greedy *)

(** The characters [re.escape] puts a backslash before. *)
Definition escaped_chars : string :=
  "()[]{}?*+-|^$\.&~# " +:+
  String (ascii_of_N 9) (String (ascii_of_N 10) (String (ascii_of_N 13)
    (String (ascii_of_N 11) (String (ascii_of_N 12) EmptyString)))).

Fixpoint mem_char (c : ascii) (s : string) : bool :=
  match s with
  | EmptyString => false
  | String d r => Ascii.eqb c d || mem_char c r
  end.

(** [re.escape(s)]. *)
Fixpoint escape (s : string) : string :=
  match s with
  | EmptyString => EmptyString
  | String c r =>
      if mem_char c escaped_chars then String "\" (String c (escape r))
      else String c (escape r)
  end.

(** The characters with a meaning of their own in a pattern. *)
Definition special_chars : string := ".\[{()*+?^$|".

(** What a backslash followed by [c] stands for: [\s] is the white-space
    class, a backslash before a character that is neither a letter nor a
    digit is that character; the other escapes are outside the fragment. *)
Definition escape_atom (c : ascii) : option atom :=
  if Ascii.eqb c "s" then Some ASpace
  else if is_alnum c then None
  else Some (ALit c).

Inductive pmode :=
  | MTop
  | MSet (items : list atom).

(** The parser: one pass over the pattern, [acc] holds the nodes read so
    far, last first.  A star replaces the node before it.  Patterns outside
    the fragment (groups, alternation, ranges, other repeats) give [None]. *)
Fixpoint parse (m : pmode) (acc : list node) (s : string) : option (list node) :=
  match s with
  | EmptyString =>
      match m with
      | MTop => Some (rev acc)
      | MSet _ => None
      end
  | String c r =>
      match m with
      | MTop =>
          if Ascii.eqb c "\" then
            match r with
            | String d r' =>
                match escape_atom d with
                | Some a => parse MTop (NAtom a :: acc) r'
                | None => None
                end
            | EmptyString => None
            end
          else if Ascii.eqb c "^" then parse MTop (NBegin :: acc) r
          else if Ascii.eqb c "[" then parse (MSet []) acc r
          else if Ascii.eqb c "*" then
            match acc with
            | NAtom a :: acc' => parse MTop (NStar a :: acc') r
            | _ => None
            end
          else if mem_char c special_chars then None
          else parse MTop (NAtom (ALit c) :: acc) r
      | MSet items =>
          if Ascii.eqb c "\" then
            match r with
            | String d r' =>
                match escape_atom d with
                | Some a => parse (MSet (a :: items)) acc r'
                | None => None
                end
            | EmptyString => None
            end
          else if Ascii.eqb c "]" then
            match items with
            | [] => parse (MSet [ALit c]) acc r
            | _ => parse MTop (NAtom (ASet (rev items)) :: acc) r
            end
          else if Ascii.eqb c "-" || Ascii.eqb c "[" || Ascii.eqb c "^" then None
          else parse (MSet (ALit c :: items)) acc r
      end
  end.

(** [re.compile(p, re.IGNORECASE)]. *)
Definition compile (p : string) : option (list node) := parse MTop [] p.

(** Matching one character, letters compared without case. *)
Fixpoint atom_matches (a : atom) (c : ascii) : bool :=
  match a with
  | ALit d => Ascii.eqb (lower d) (lower c)
  | ASpace => is_space c
  | ASet items => existsb (fun i => atom_matches i c) items
  end.

(** The backtracking matcher: [match_here p pos s] is the number of
    characters of [s] the first successful way of matching [p] consumes,
    [s] being the text from offset [pos] on.  A star tries the longest run
    first and gives characters back one at a time. *)
Fixpoint match_here (p : list node) (pos : nat) (s : string) : option nat :=
  match p with
  | [] => Some 0
  | NBegin :: p' =>
      match pos with
      | 0 => match_here p' pos s
      | S _ => None
      end
  | NAtom a :: p' =>
      match s with
      | String c r =>
          if atom_matches a c then S <$> match_here p' (S pos) r else None
      | EmptyString => None
      end
  | NStar a :: p' =>
      (fix star (pos : nat) (s : string) : option nat :=
         match s with
         | String c r =>
             if atom_matches a c then
               match star (S pos) r with
               | Some n => Some (S n)
               | None => match_here p' pos s
               end
             else match_here p' pos s
         | EmptyString => match_here p' pos s
         end) pos s
  end.

(** [Pattern.sub('', s)]: scan from the left, drop every match, copy the
    rest.  [skip] counts the characters of the current match that are
    still to be dropped. *)
Fixpoint sub_go (p : list node) (skip pos : nat) (s : string) : string :=
  match s with
  | EmptyString => EmptyString
  | String c r =>
      match skip with
      | S k => sub_go p k (S pos) r
      | 0 =>
          match match_here p pos s with
          | Some (S n) => sub_go p n (S pos) r
          | _ => String c (sub_go p 0 (S pos) r)
          end
      end
  end.

Definition sub_empty (p : list node) (s : string) : string := sub_go p 0 0 s.

End Re.

(** ** Values, exceptions, the world *)

Import PyText.

Arguments strip : simpl never.
Arguments split_ws : simpl never.
Arguments split_on : simpl never.
Arguments join : simpl never.
Arguments startswith : simpl never.
Arguments contains : simpl never.
Arguments str_of_int : simpl never.
Arguments ascii_text : simpl never.
Arguments printable : simpl never.
Arguments Urllib.quote : simpl never.

(** The values [json.load] builds (numbers with a fraction are left out). *)
Inductive pyval :=
  | PNone
  | PBool (b : bool)
  | PInt (z : Z)
  | PStr (s : string)
  | PList (l : list pyval)
  | PDict (d : gmap string pyval).

Inductive exn :=
  | AttributeError
  | TypeError
  | IndexError
  | ReError
  | FileNotFoundError
  | OSError
  | JSONDecodeError (detail : string)
  | EOFError
  | KeyboardInterrupt.

Inductive result (A : Type) :=
  | Ok (a : A)
  | Raise (e : exn).
Arguments Ok {A} a.
Arguments Raise {A} e.

#[global] Instance result_ret : MRet result := @Ok.
#[global] Instance result_bind : MBind result :=
  fun A B f m => match m with Ok a => f a | Raise e => Raise e end.
#[global] Instance result_fmap : FMap result :=
  fun A B f m => match m with Ok a => Ok (f a) | Raise e => Raise e end.

(** [except Exception] catches every class but [KeyboardInterrupt]. *)
Definition is_Exception (e : exn) : bool :=
  match e with KeyboardInterrupt => false | _ => true end.

Inductive level := INFO | WARN | ERROR.

(** The log lines of the script, one constructor per format string. *)
Inductive message :=
  | MBlank
  | MNoTokens
  | MNoIssuer (name : pyval)
  | MProposed (issuer : pyval)
  | MMayContain (name : pyval)
  | MProcessed (issuer : pyval) (account : string)
  | MConverted (n : nat)
  | MWritten (path : string)
  | MNotFound (path : string)
  | MInvalidJSON (path detail : string)
  | MError (e : exn).

(** What the operator does at a prompt. *)
Inductive keyboard :=
  | Line (s : string)
  | CtrlC.

(** Why a path cannot be written. *)
Inductive fault :=
  | NoDirectory          (* [open] raises [FileNotFoundError] *)
  | NotWritable          (* [open] raises another [OSError]: no permission,
                            a directory *)
  | Broken (n : nat).    (* [open] succeeds and empties the file; [write] or
                            [close] raises [OSError] with [n] characters
                            written *)

Record world := World {
  files : gmap string string;
  stdin : list keyboard;
  log : list (level * message);
  faults : gmap string fault
}.

(** State and exceptions: an exception keeps the world it was raised in. *)
Definition M (A : Type) : Type := world -> world * result A.

Definition retM {A} (a : A) : M A := fun w => (w, Ok a).

Definition bindM {A B} (m : M A) (k : A -> M B) : M B :=
  fun w => match m w with
           | (w', Ok a) => k a w'
           | (w', Raise e) => (w', Raise e)
           end.

Definition liftM {A} (r : result A) : M A := fun w => (w, r).

Notation "x <- m ;; k" := (bindM m (fun x => k))
  (at level 100, m at next level, right associativity).
Notation "m ;;; k" := (bindM m (fun _ => k))
  (at level 100, right associativity).

Definition logger (l : level) (m : message) : M unit :=
  fun w => (World (files w) (stdin w) (log w ++ [(l, m)]) (faults w), Ok tt).

(** [input(prompt)]. *)
Definition input : M string :=
  fun w => match stdin w with
           | [] => (w, Raise EOFError)
           | Line s :: rest => (World (files w) rest (log w) (faults w), Ok s)
           | CtrlC :: rest => (World (files w) rest (log w) (faults w), Raise KeyboardInterrupt)
           end.

(** [open(path, 'r').read()]. *)
Definition read_file (path : string) : M string :=
  fun w => match files w !! path with
           | Some text => (w, Ok text)
           | None => (w, Raise FileNotFoundError)
           end.

(** [with open(path, 'w') as f: f.write(text)]. *)
Definition write_file (path text : string) : M unit :=
  fun w => match faults w !! path with
           | None =>
               (World (<[path := text]> (files w)) (stdin w) (log w) (faults w), Ok tt)
           | Some NoDirectory => (w, Raise FileNotFoundError)
           | Some NotWritable => (w, Raise OSError)
           | Some (Broken n) =>
               (World (<[path := take_chars n text]> (files w)) (stdin w) (log w)
                  (faults w),
                Raise OSError)
           end.

(** ** Operations on values *)

Definition truthy (v : pyval) : bool :=
  match v with
  | PNone => false
  | PBool b => b
  | PInt z => negb (z =? 0)%Z
  | PStr s => negb (String.eqb s "")
  | PList l => match l with [] => false | _ => true end
  | PDict d => negb (Nat.eqb (size d) 0)
  end.

(** [d.get(k, default)] on a dict. *)
Definition dict_get (d : gmap string pyval) (k : string) (dflt : pyval) : pyval :=
  default dflt (d !! k).

Definition py_get (v : pyval) (k : string) (dflt : pyval) : result pyval :=
  match v with
  | PDict d => Ok (dict_get d k dflt)
  | _ => Raise AttributeError
  end.

Definition str_strip (v : pyval) : result string :=
  match v with
  | PStr s => Ok (strip s)
  | _ => Raise AttributeError
  end.

Definition str_startswith (v : pyval) (p : string) : result bool :=
  match v with
  | PStr s => Ok (startswith p s)
  | _ => Raise AttributeError
  end.

Definition str_split_ws (v : pyval) : result (list string) :=
  match v with
  | PStr s => Ok (split_ws s)
  | _ => Raise AttributeError
  end.

Definition str_split_on (sep : ascii) (v : pyval) : result (list string) :=
  match v with
  | PStr s => Ok (split_on sep s)
  | _ => Raise AttributeError
  end.

Definition is_str (needle : string) (v : pyval) : bool :=
  match v with
  | PStr s => String.eqb s needle
  | _ => false
  end.

(** [needle in v]: substring of a string, element of a list, key of a dict. *)
Definition py_in (needle : string) (v : pyval) : result bool :=
  match v with
  | PStr s => Ok (contains needle s)
  | PList l => Ok (existsb (is_str needle) l)
  | PDict d => Ok (bool_decide (is_Some (d !! needle)))
  | _ => Raise TypeError
  end.

(** [xs[0]]. *)
Definition first {A} (xs : list A) : result A :=
  match xs with
  | x :: _ => Ok x
  | [] => Raise IndexError
  end.

(** [for x in v]: the elements of a list, the characters of a string, the
    keys of a dict (every one of them a string, in an order that is not
    Python's). *)
Fixpoint chars (s : string) : list pyval :=
  match s with
  | EmptyString => []
  | String c r => PStr (String c EmptyString) :: chars r
  end.

Definition py_iter (v : pyval) : result (list pyval) :=
  match v with
  | PList l => Ok l
  | PStr s => Ok (chars s)
  | PDict d => Ok ((fun kv => PStr kv.1) <$> map_to_list d)
  | _ => Raise TypeError
  end.

Definition re_escape (v : pyval) : result string :=
  match v with
  | PStr s => Ok (Re.escape s)
  | _ => Raise TypeError
  end.

Definition re_compile (p : string) : result (list Re.node) :=
  match Re.compile p with
  | Some nodes => Ok nodes
  | None => Raise ReError
  end.

Definition pattern_sub (p : list Re.node) (v : pyval) : result string :=
  match v with
  | PStr s => Ok (Re.sub_empty p s)
  | _ => Raise TypeError
  end.

Definition py_quote (v : pyval) : result string :=
  match v with
  | PStr s => Ok (Urllib.quote s)
  | _ => Raise TypeError
  end.

(** ** The script *)

Section Convert.

(** [str(v)] for a list or a dict, and [json.loads]: either the parsed
    value or the detail of a [JSONDecodeError]. *)
Variable render : pyval -> string.
Variable json_loads : string -> string + pyval.

(** [f"{v}"]. *)
Definition py_str (v : pyval) : string :=
  match v with
  | PNone => "None"
  | PBool true => "True"
  | PBool false => "False"
  | PInt z => str_of_int z
  | PStr s => s
  | _ => render v
  end.

Definition strip_issuer_from_name (name issuer : pyval) : result string :=
  if negb (truthy name) || negb (truthy issuer) then
    if truthy name then str_strip name else Ok ""
  else
    escaped ← re_escape issuer;
    pattern ← re_compile ("^" +:+ escaped +:+ "\s*[:\-\s]\s*");
    cleaned_name ← pattern_sub pattern name;
    Ok (strip cleaned_name).

Definition generate_otpauth_uri (token : gmap string pyval) : result string :=
  let issuer := dict_get token "issuer" (PStr "") in
  let name := dict_get token "name" (PStr "") in
  let secret := dict_get token "decrypted_seed" (PStr "") in
  let digits := dict_get token "digits" (PInt 6) in
  account ← strip_issuer_from_name name issuer;
  account ← (if String.eqb account "" then str_strip name else Ok account);
  let label :=
    if truthy issuer then py_str issuer +:+ ":" +:+ account else account in
  let encoded_label := Urllib.quote label in
  let uri := "otpauth://totp/" +:+ encoded_label in
  let params := [] in
  let params :=
    if truthy secret then params ++ ["secret=" +:+ py_str secret] else params in
  params ← (if truthy issuer then
               encoded_issuer ← py_quote issuer;
               Ok (params ++ ["issuer=" +:+ encoded_issuer])
             else Ok params);
  let params :=
    if truthy digits then params ++ ["digits=" +:+ py_str digits] else params in
  let params := params ++ ["algorithm=SHA1"] in
  Ok (match params with
      | [] => uri
      | _ => uri +:+ "?" +:+ join "&" params
      end).

(** Lines 121-143: the fallback chain. *)
Definition resolve_issuer (token : gmap string pyval) : result pyval :=
  let issuer := dict_get token "issuer" PNone in
  issuer ← (if negb (truthy issuer) then
               let logo := dict_get token "logo" PNone in
               if truthy logo then
                 b ← str_startswith logo "authenticator_";
                 Ok (if negb b then logo else issuer)
               else Ok issuer
             else Ok issuer);
  issuer ← (if negb (truthy issuer) then
               let account_type := dict_get token "account_type" PNone in
               if truthy account_type then
                 b ← str_startswith account_type "authenticator";
                 Ok (if negb b then account_type else issuer)
               else Ok issuer
             else Ok issuer);
  issuer ← (if negb (truthy issuer) then
               let name := dict_get token "name" (PStr "") in
               b ← py_in ":" name;
               if b : bool then
                 parts ← str_split_on ":" name;
                 head ← first parts;
                 Ok (PStr (strip head))
               else Ok issuer
             else Ok issuer);
  if negb (truthy issuer) then
    PStr <$> str_strip (dict_get token "name" (PStr ""))
  else Ok issuer.

(** Lines 147-149: one round of the loop over [range(len(words))]. *)
Definition capitalize_at (words : list string) (i : nat) : result (list string) :=
  match words !! i with
  | None => Raise IndexError
  | Some EmptyString => Raise IndexError
  | Some (String c r) =>
      if is_lower c then Ok (<[i := String (upper c) r]> words) else Ok words
  end.

Fixpoint for_range (range : list nat) (words : list string) : result (list string) :=
  match range with
  | [] => Ok words
  | i :: range' => words' ← capitalize_at words i; for_range range' words'
  end.

(** Lines 145-150. *)
Definition title_case (issuer : pyval) : result pyval :=
  if truthy issuer then
    words ← str_split_ws issuer;
    words ← for_range (seq 0 (length words)) words;
    Ok (PStr (join " " words))
  else Ok issuer.

(** Lines 152-159. *)
Definition confirm_issuer (interactive : bool) (token : gmap string pyval)
    (issuer : pyval) : M pyval :=
  if interactive then
    logger INFO MBlank ;;;
    logger WARN (MNoIssuer (dict_get token "name" PNone)) ;;;
    logger INFO (MProposed issuer) ;;;
    line <- input ;;
    let user_input := strip line in
    retM (if negb (String.eqb user_input "") then PStr user_input else issuer)
  else retM issuer.

(** Lines 119-177: the body of the loop, for a token that is a dict. *)
Definition process_dict (interactive : bool) (token : gmap string pyval) : M string :=
  issuer <- liftM (resolve_issuer token) ;;
  issuer <- liftM (title_case issuer) ;;
  issuer <- confirm_issuer interactive token issuer ;;
  let token := <["issuer" := issuer]> token in
  let final_issuer := dict_get token "issuer" (PStr "Unknown") in
  account <- liftM (strip_issuer_from_name (dict_get token "name" (PStr "")) final_issuer) ;;
  renamed <-
    (if contains ": " account && interactive then
       logger WARN (MMayContain (dict_get token "name" PNone)) ;;;
       line <- input ;;
       let custom_accout_input := strip line in
       retM (if negb (String.eqb custom_accout_input "") then
               (custom_accout_input, <["name" := PStr custom_accout_input]> token)
             else (account, token))
     else retM (account, token)) ;;
  let account := renamed.1 in
  let token := renamed.2 in
  logger INFO (MProcessed final_issuer account) ;;;
  liftM (generate_otpauth_uri token).

Definition process_token (interactive : bool) (token : pyval) : M string :=
  match token with
  | PDict d => process_dict interactive d
  | _ => liftM (Raise AttributeError)
  end.

Fixpoint for_tokens (interactive : bool) (tokens : list pyval) (uris : list string)
    : M (list string) :=
  match tokens with
  | [] => retM uris
  | token :: tokens' =>
      uri <- process_token interactive token ;;
      for_tokens interactive tokens' (uris ++ [uri])
  end.

(** Lines 106-185: the [try] block; the first branch of the test is the
    early [return]. *)
Definition convert_body (input_file output_file : string) (interactive : bool)
    : M unit :=
  text <- read_file input_file ;;
  data <- liftM (match json_loads text with
                 | inr data => Ok data
                 | inl detail => Raise (JSONDecodeError detail)
                 end) ;;
  tokens <- liftM (py_get data "decrypted_authenticator_tokens" (PList [])) ;;
  if negb (truthy tokens) then
    logger ERROR MNoTokens
  else
    tokens <- liftM (py_iter tokens) ;;
    uris <- for_tokens interactive tokens [] ;;
    write_file output_file (join (String (ascii_of_N 10) EmptyString) uris) ;;;
    logger INFO MBlank ;;;
    logger INFO (MConverted (length uris)) ;;;
    logger INFO (MWritten output_file).

(** Lines 187-192: the handlers. *)
Definition convert_tokens (input_file output_file : string) (interactive : bool)
    : M unit :=
  fun w =>
    match convert_body input_file output_file interactive w with
    | (w', Ok tt) => (w', Ok tt)
    | (w', Raise FileNotFoundError) => logger ERROR (MNotFound input_file) w'
    | (w', Raise (JSONDecodeError detail)) =>
        logger ERROR (MInvalidJSON input_file detail) w'
    | (w', Raise e) =>
        if is_Exception e then logger ERROR (MError e) w' else (w', Raise e)
    end.

End Convert.

(** ** Auxiliary functions of the statements *)

(** [s[n:]]. *)
Fixpoint drop_chars (n : nat) (s : string) : string :=
  match n, s with
  | 0, _ => s
  | S k, String _ r => drop_chars k r
  | S _, EmptyString => EmptyString
  end.

(** Length of the white space at the head of [s]. *)
Fixpoint count_ws (s : string) : nat :=
  match s with
  | String c r => if is_space c then S (count_ws r) else 0
  | EmptyString => 0
  end.

(** Two characters, then two strings, equal up to the case of letters. *)
Definition ci_char (a b : ascii) : bool := Ascii.eqb (lower a) (lower b).

Fixpoint ci_equal (p issuer : string) : bool :=
  match p, issuer with
  | EmptyString, EmptyString => true
  | String a p', String b issuer' => ci_char b a && ci_equal p' issuer'
  | _, _ => false
  end.

(** What is left of [s] after an occurrence of [issuer] at its head. *)
Fixpoint ci_strip (issuer s : string) : option string :=
  match issuer with
  | EmptyString => Some s
  | String a issuer' =>
      match s with
      | String b s' => if ci_char a b then ci_strip issuer' s' else None
      | EmptyString => None
      end
  end.

Definition is_colon_or_hyphen (c : ascii) : bool :=
  Ascii.eqb c ":" || Ascii.eqb c "-".
Arguments is_colon_or_hyphen : simpl never.

(** Length of the longest head of [s] made of white space, one separator
    character and white space again, if there is one. *)
Fixpoint sep_len (s : string) : option nat :=
  match s with
  | String c r =>
      if is_space c then
        match sep_len r with
        | Some n => Some (S n)
        | None => Some 1
        end
      else if is_colon_or_hyphen c then Some (S (count_ws r))
      else None
  | EmptyString => None
  end.

Fixpoint lits (s : string) : list Re.node :=
  match s with
  | EmptyString => []
  | String c r => Re.NAtom (Re.ALit c) :: lits r
  end.

Definition separator_nodes : list Re.node :=
  [Re.NStar Re.ASpace;
   Re.NAtom (Re.ASet [Re.ALit ":"; Re.ALit "-"; Re.ASpace]);
   Re.NStar Re.ASpace].

(** The compiled form of the pattern of [strip_issuer_from_name]. *)
Definition issuer_pattern (issuer : string) : list Re.node :=
  Re.NBegin :: lits issuer ++ separator_nodes.

(** What [Pattern.sub] leaves of [name], as a function of the two strings. *)
Definition cleaned (issuer name : string) : string :=
  match ci_strip issuer name with
  | Some r =>
      match sep_len r with
      | Some n => drop_chars n r
      | None => name
      end
  | None => name
  end.

(** The statement of the name cleaner, after the specification: an
    occurrence of the issuer up to case, then a colon, a hyphen or a white
    space character with optional white space on both sides. *)
Fixpoint all_space (s : string) : bool :=
  match s with
  | String c r => is_space c && all_space r
  | EmptyString => true
  end.

Definition is_separator (c : ascii) : bool :=
  Ascii.eqb c ":" || Ascii.eqb c "-" || is_space c.

Definition issuer_prefix (issuer pre : string) : Prop :=
  exists p ws1 c ws2,
    pre = p +:+ ws1 +:+ String c ws2 /\ ci_equal p issuer = true /\
    all_space ws1 = true /\ is_separator c = true /\ all_space ws2 = true.

(** Whether the first character of [s] after its leading white space is a
    colon or a hyphen. *)
Definition separator_follows (s : string) : bool :=
  match lstrip s with
  | String c _ => is_colon_or_hyphen c
  | EmptyString => false
  end.

(** ** The vocabulary of the statements *)

(** A field that holds text, or an integer, or is absent. *)
Definition is_text (token : gmap string pyval) (k : string) : bool :=
  match token !! k with
  | None | Some (PStr _) => true
  | Some _ => false
  end.

Definition is_int (token : gmap string pyval) (k : string) : bool :=
  match token !! k with
  | None | Some (PInt _) => true
  | Some _ => false
  end.

(** A field that holds text or [None], or is absent. *)
Definition is_optional_text (token : gmap string pyval) (k : string) : bool :=
  match token !! k with
  | None | Some PNone | Some (PStr _) => true
  | Some _ => false
  end.

(** The text of a field, empty when the field holds none. *)
Definition text (token : gmap string pyval) (k : string) : string :=
  match token !! k with
  | Some (PStr s) => s
  | _ => ""
  end.

Definition nonempty (s : string) : bool := negb (String.eqb s "").

(** The issuer resolver, after the specification: five candidates, the
    first one that is not empty wins. *)
Definition usable_hint (prefix s : string) : string :=
  if startswith prefix s then "" else s.

Fixpoint before_first (c : ascii) (s : string) : string :=
  match s with
  | EmptyString => EmptyString
  | String d r => if Ascii.eqb d c then EmptyString else String d (before_first c r)
  end.

Definition before_colon (name : string) : string :=
  if contains ":" name then strip (before_first ":" name) else "".

Fixpoint first_nonempty (candidates : list string) : string :=
  match candidates with
  | [] => ""
  | s :: rest => if nonempty s then s else first_nonempty rest
  end.

Definition issuer_chain (token : gmap string pyval) : string :=
  first_nonempty
    [text token "issuer";
     usable_hint "authenticator_" (text token "logo");
     usable_hint "authenticator" (text token "account_type");
     before_colon (text token "name");
     strip (text token "name")].

Definition resolver_typed (token : gmap string pyval) : bool :=
  is_optional_text token "issuer" && is_optional_text token "logo" &&
  is_optional_text token "account_type" && is_text token "name".

(** Title-casing, after the specification. *)
Definition capitalize_word (w : string) : string :=
  match w with
  | String c r => if is_lower c then String (upper c) r else w
  | EmptyString => EmptyString
  end.

Definition title_case_words (s : string) : string :=
  join " " (capitalize_word <$> split_ws s).

(** The URI builder, after the specification. *)
Definition builder_typed (token : gmap string pyval) : bool :=
  is_text token "issuer" && is_text token "name" &&
  is_text token "decrypted_seed" && is_int token "digits".

Definition digits_of (token : gmap string pyval) : Z :=
  match token !! "digits" with
  | Some (PInt z) => z
  | _ => 6%Z
  end.

Definition clean_name (issuer name : string) : string :=
  if nonempty name && nonempty issuer then strip (cleaned issuer name)
  else strip name.

Definition account_of (issuer name : string) : string :=
  if nonempty (clean_name issuer name) then clean_name issuer name else strip name.

Definition label_of (token : gmap string pyval) : string :=
  let issuer := text token "issuer" in
  let account := account_of issuer (text token "name") in
  if nonempty issuer then issuer +:+ ":" +:+ account else account.

Definition secret_param (token : gmap string pyval) : list string :=
  let secret := text token "decrypted_seed" in
  if nonempty secret then ["secret=" +:+ secret] else [].

Definition issuer_param (token : gmap string pyval) : list string :=
  let issuer := text token "issuer" in
  if nonempty issuer then ["issuer=" +:+ Urllib.quote issuer] else [].

Definition digits_param (token : gmap string pyval) : list string :=
  let digits := digits_of token in
  if (digits =? 0)%Z then [] else ["digits=" +:+ str_of_int digits].

Definition query_params (token : gmap string pyval) : list string :=
  secret_param token ++ issuer_param token ++ digits_param token ++ ["algorithm=SHA1"].

Definition uri_of (token : gmap string pyval) : string :=
  "otpauth://totp/" +:+ Urllib.quote (label_of token) +:+ "?" +:+
  join "&" (query_params token).

(** One step of the chain: keep a truthy issuer, else take the candidate
    when it is not empty. *)
Definition pick (issuer : pyval) (candidate : string) : pyval :=
  if truthy issuer then issuer
  else if nonempty candidate then PStr candidate else issuer.

(** The query string of any token, typed or not: the three parameters in
    their order, each only for a truthy value, then the algorithm. *)
Definition params_of (render : pyval -> string) (token : gmap string pyval)
    : list string :=
  let secret := dict_get token "decrypted_seed" (PStr "") in
  let issuer := dict_get token "issuer" (PStr "") in
  let digits := dict_get token "digits" (PInt 6) in
  (if truthy secret then ["secret=" +:+ py_str render secret] else []) ++
  (if truthy issuer then
     match issuer with
     | PStr s => ["issuer=" +:+ Urllib.quote s]
     | _ => []
     end
   else []) ++
  (if truthy digits then ["digits=" +:+ py_str render digits] else []) ++
  ["algorithm=SHA1"].

(** A document without tokens: not an object, or an object whose entry
    for the key is missing or falsy. *)
Definition holds_no_tokens (data : pyval) : bool :=
  match data with
  | PDict d => negb (truthy (dict_get d "decrypted_authenticator_tokens" (PList [])))
  | _ => true
  end.

(** The three ways in which the input yields no tokens. *)
Inductive no_tokens_in (json_loads : string -> string + pyval) (w : world)
    (input_file : string) : Prop :=
  | InputNotFound :
      files w !! input_file = None -> no_tokens_in json_loads w input_file
  | InputMalformed (text detail : string) :
      files w !! input_file = Some text -> json_loads text = inl detail ->
      no_tokens_in json_loads w input_file
  | InputEmpty (text : string) (data : pyval) :
      files w !! input_file = Some text -> json_loads text = inr data ->
      holds_no_tokens data = true -> no_tokens_in json_loads w input_file.

(** What the name cleaner does to a non-empty [name] for a non-empty
    [issuer], after the specification: the longest head of [name] that is an
    issuer prefix is removed and the rest is trimmed; without such a head the
    whole name is trimmed. *)
Definition removes_issuer_prefix (name issuer : string) (cleaned_name : result string)
    : Prop :=
  (exists pre rest,
      name = pre +:+ rest /\ issuer_prefix issuer pre /\
      (forall pre' rest', name = pre' +:+ rest' -> issuer_prefix issuer pre' ->
                          String.length pre' <= String.length pre) /\
      cleaned_name = Ok (strip rest))
  \/ ((forall pre rest, name = pre +:+ rest -> ~ issuer_prefix issuer pre) /\
      cleaned_name = Ok (strip name)).

(** The worlds of the interactive examples: one export file, one typed
    line. *)
Definition interactive_world : world :=
  World {["tokens.json" := "export"]} [Line "Other"] [] ∅.

Definition padded_line_world : world :=
  World {["tokens.json" := "export"]} [Line " other bank "] [] ∅.

(** A token without the [digits] field. *)
Definition no_digits_token : gmap string pyval :=
  <["name" := PStr "jsmith"]> (<["decrypted_seed" := PStr "SECRET123"]> ∅).

(** ** Tokens of the examples *)

Definition acme_token : gmap string pyval :=
  <["issuer" := PStr "Acme"]> (<["name" := PStr "Acme: jsmith"]>
    (<["decrypted_seed" := PStr "SECRET123"]> (<["digits" := PInt 6]> ∅))).

Definition jsmith_token : gmap string pyval :=
  <["name" := PStr "jsmith"]>
    (<["decrypted_seed" := PStr "SECRET123"]> (<["digits" := PInt 8]> ∅)).

Definition zero_digits_token : gmap string pyval :=
  <["name" := PStr "jsmith"]>
    (<["decrypted_seed" := PStr "SECRET123"]> (<["digits" := PInt 0]> ∅)).

Definition colon_first_token : gmap string pyval :=
  <["name" := PStr ":jsmith"]> ∅.

Definition explicit_issuer_token : gmap string pyval :=
  <["issuer" := PStr "Acme"]> (<["name" := PStr "jsmith"]>
    (<["decrypted_seed" := PStr "SECRET123"]> (<["digits" := PInt 6]> ∅))).

Definition hinted_token : gmap string pyval :=
  <["logo" := PStr "github"]> (<["account_type" := PStr "service"]>
    (<["name" := PStr "jsmith"]> ∅)).

(** A rendering of lists and dicts, and two parsers, to run the examples
    with: no list or dict is rendered in them; the first parser knows one
    document, the second reads every file as the given document. *)
Definition render_none (v : pyval) : string := "".

Definition loads_one (text : string) : string + pyval :=
  if String.eqb text "{}" then inr (PDict ∅) else inl "Expecting value".

Definition loads_document (data : pyval) (text : string) : string + pyval :=
  inr data.

Definition one_token_document (token : gmap string pyval) : pyval :=
  PDict {["decrypted_authenticator_tokens" := PList [PDict token]]}.

(** ** Vocabulary of the further properties *)

(** Every character of [s] passes the test [P]. *)
Fixpoint all_chars (P : ascii -> bool) (s : string) : bool :=
  match s with
  | String c r => P c && all_chars P r
  | EmptyString => true
  end.

(** The characters a percent-encoded text is made of. *)
Definition encoded_char (c : ascii) : bool :=
  Urllib.always_safe c || Ascii.eqb c "%".

(** A word: not empty and free of white space. *)
Definition no_space (c : ascii) : bool := negb (is_space c).

Definition is_word (w : string) : bool := nonempty w && all_chars no_space w.

(** The word starts with a lowercase letter. *)
Definition starts_lower (w : string) : bool :=
  match w with
  | String c _ => is_lower c
  | EmptyString => false
  end.

Definition not_colon (c : ascii) : bool := negb (Ascii.eqb c ":").

(** The line separator of the output file. *)
Definition newline : string := String (ascii_of_N 10) EmptyString.

(** A log record below the error level. *)
Definition no_error (r : level * message) : Prop := r.1 <> ERROR.

(** A result that is no exception, or one that [except Exception] catches. *)
Definition benign {A} (r : result A) : Prop :=
  forall e, r = Raise e -> is_Exception e = true.

(** What every step of the token loop keeps: the files and what is known of
    the paths that cannot be written; the log, which only grows and gets no
    error record; and, without interaction, the standard input, exceptions
    that [except Exception] catches, and a result that does not depend on the
    world. *)
Definition orderly (interactive : bool) {A} (m : M A) : Prop :=
  forall w,
    files (m w).1 = files w /\ faults (m w).1 = faults w /\
    (exists l, log (m w).1 = log w ++ l /\ Forall no_error l) /\
    (interactive = false ->
     stdin (m w).1 = stdin w /\ benign (m w).2 /\ forall w', (m w').2 = (m w).2).

(** The token as the loop hands it to the builder in batch mode, and the
    record the loop logs for it. *)
Definition token_typed (token : gmap string pyval) : bool :=
  resolver_typed token && is_text token "decrypted_seed" && is_int token "digits".

(** A token within the reach of the text model: typed, its text made of
    ASCII characters, its digits an integer that [str] converts. *)
Definition plain_token (token : gmap string pyval) : bool :=
  token_typed token &&
  ascii_text (text token "issuer") && ascii_text (text token "logo") &&
  ascii_text (text token "account_type") && ascii_text (text token "name") &&
  ascii_text (text token "decrypted_seed") && printable (digits_of token).

Definition batch_issuer (token : gmap string pyval) : string :=
  title_case_words (issuer_chain token).

Definition resolved (token : gmap string pyval) : gmap string pyval :=
  <["issuer" := PStr (batch_issuer token)]> token.

Definition processed (token : gmap string pyval) : level * message :=
  (INFO, MProcessed (PStr (batch_issuer token))
           (clean_name (batch_issuer token) (text token "name"))).

(** The issuer after the first prompt of interactive mode, and the lines of
    the log that every prompt for an issuer writes. *)
Definition chosen_issuer (token : gmap string pyval) (line : string) : string :=
  if nonempty (strip line) then strip line else batch_issuer token.

Definition prompt_records (token : gmap string pyval) : list (level * message) :=
  [(INFO, MBlank); (WARN, MNoIssuer (dict_get token "name" PNone));
   (INFO, MProposed (PStr (batch_issuer token)))].

(** More tokens, documents and worlds for the instances. *)
Definition blank_token : gmap string pyval := <["name" := PStr "  "]> ∅.

Definition github_token : gmap string pyval :=
  <["name" := PStr "github:bob"]> (<["decrypted_seed" := PStr "SECRET123"]> ∅).

Definition null_name_token : gmap string pyval :=
  <["issuer" := PStr "Acme"]> (<["name" := PNone]> ∅).

Definition numeric_issuer_token : gmap string pyval :=
  <["issuer" := PInt 5]> (<["name" := PStr "jsmith"]> ∅).

Definition tokens_document (tokens : list pyval) : pyval :=
  PDict {["decrypted_authenticator_tokens" := PList tokens]}.

Definition batch_world : world := World {["tokens.json" := "export"]} [] [] ∅.

Definition interrupted_world : world :=
  World {["tokens.json" := "export"]} [CtrlC; Line "Other"] [] ∅.

Definition two_lines_world : world :=
  World {["tokens.json" := "export"]} [Line " other bank "; Line ""] [] ∅.

(** Worlds whose output path cannot be written: its directory is missing,
    it is denied, or the write breaks off after twelve characters of a file
    that held something before. *)
Definition missing_directory_world : world :=
  World {["tokens.json" := "export"]} [] [] {["out/uris.txt" := NoDirectory]}.

Definition denied_world : world :=
  World {["tokens.json" := "export"]} [] [] {["out.txt" := NotWritable]}.

Definition broken_write_world : world :=
  World (<["out.txt" := "old"]> {["tokens.json" := "export"]}) [] []
    {["out.txt" := Broken 12]}.

(** ** Facts about text *)

Lemma append_nil_l (s : string) : "" +:+ s = s.
Proof. reflexivity. Qed.

Lemma append_cons (c : ascii) (s t : string) :
  String c s +:+ t = String c (s +:+ t).
Proof. reflexivity. Qed.

Lemma append_nil_r (s : string) : s +:+ "" = s.
Proof. induction s as [|c s IH]; [done|]. by rewrite append_cons, IH. Qed.

Lemma append_assoc (s t u : string) : (s +:+ t) +:+ u = s +:+ t +:+ u.
Proof. induction s as [|c s IH]; [done|]. by rewrite !append_cons, IH. Qed.

Lemma length_append (s t : string) :
  String.length (s +:+ t) = String.length s + String.length t.
Proof. induction s as [|c s IH]; [done|]. rewrite append_cons. simpl. by rewrite IH. Qed.

Lemma drop_chars_append (s t : string) : drop_chars (String.length s) (s +:+ t) = t.
Proof. induction s as [|c s IH]; [by destruct t|]. by rewrite append_cons. Qed.

Lemma drop_chars_add (a b : nat) (s : string) :
  drop_chars (a + b) s = drop_chars b (drop_chars a s).
Proof.
  revert s. induction a as [|a IH]; intros s; [done|].
  destruct s as [|c s]; simpl; [by destruct b|]. apply IH.
Qed.

(** ** Facts about the pattern *)

Lemma escaped_is_literal (c : ascii) :
  Re.mem_char c Re.escaped_chars = true -> Re.escape_atom c = Some (Re.ALit c).
Proof.
  destruct c as [[] [] [] [] [] [] [] []]; vm_compute; intros H;
    first [reflexivity | discriminate H].
Qed.

Lemma plain_is_literal (c : ascii) (acc : list Re.node) (r : string) :
  Re.mem_char c Re.escaped_chars = false ->
  Re.parse Re.MTop acc (String c r) = Re.parse Re.MTop (Re.NAtom (Re.ALit c) :: acc) r.
Proof.
  destruct c as [[] [] [] [] [] [] [] []]; intros H;
    first [discriminate H | reflexivity].
Qed.

Lemma escape_cons (c : ascii) (s : string) :
  Re.escape (String c s) =
  if Re.mem_char c Re.escaped_chars then String "\" (String c (Re.escape s))
  else String c (Re.escape s).
Proof. reflexivity. Qed.

Lemma parse_backslash (c : ascii) (a : Re.atom) (acc : list Re.node) (r : string) :
  Re.escape_atom c = Some a ->
  Re.parse Re.MTop acc (String "\" (String c r)) = Re.parse Re.MTop (Re.NAtom a :: acc) r.
Proof. intros H. simpl. by rewrite H. Qed.

Lemma parse_escape (s : string) (acc : list Re.node) (rest : string) :
  Re.parse Re.MTop acc (Re.escape s +:+ rest) =
  Re.parse Re.MTop (rev (lits s) ++ acc) rest.
Proof.
  revert acc. induction s as [|c s IH]; intros acc; [done|].
  rewrite escape_cons. simpl lits. simpl rev.
  destruct (Re.mem_char c Re.escaped_chars) eqn:E.
  - rewrite !append_cons, (parse_backslash c _ acc _ (escaped_is_literal c E)), IH.
    by rewrite <- app_assoc.
  - rewrite append_cons, (plain_is_literal c acc _ E), IH. by rewrite <- app_assoc.
Qed.

Lemma compile_issuer_pattern (issuer : string) :
  Re.compile ("^" +:+ Re.escape issuer +:+ "\s*[:\-\s]\s*") = Some (issuer_pattern issuer).
Proof.
  unfold Re.compile. rewrite append_cons, append_nil_l.
  change (Re.parse Re.MTop [] (String "^" ?r)) with (Re.parse Re.MTop [Re.NBegin] r).
  rewrite parse_escape. simpl Re.parse. unfold issuer_pattern, separator_nodes.
  f_equal. simpl rev. rewrite !rev_app_distr, rev_involutive. simpl.
  by rewrite <- !app_assoc.
Qed.

(** ** Facts about matching *)

Lemma match_star_cons (a : Re.atom) (p : list Re.node) (pos : nat) (c : ascii) (r : string) :
  Re.match_here (Re.NStar a :: p) pos (String c r) =
  if Re.atom_matches a c then
    match Re.match_here (Re.NStar a :: p) (S pos) r with
    | Some n => Some (S n)
    | None => Re.match_here p pos (String c r)
    end
  else Re.match_here p pos (String c r).
Proof. reflexivity. Qed.

Lemma match_star_nil (a : Re.atom) (p : list Re.node) (pos : nat) :
  Re.match_here (Re.NStar a :: p) pos "" = Re.match_here p pos "".
Proof. reflexivity. Qed.

Lemma match_atom_cons (a : Re.atom) (p : list Re.node) (pos : nat) (c : ascii) (r : string) :
  Re.match_here (Re.NAtom a :: p) pos (String c r) =
  if Re.atom_matches a c then S <$> Re.match_here p (S pos) r else None.
Proof. reflexivity. Qed.

Lemma set_matches (c : ascii) :
  Re.atom_matches (Re.ASet [Re.ALit ":"; Re.ALit "-"; Re.ASpace]) c =
  is_colon_or_hyphen c || is_space c.
Proof. by destruct c as [[] [] [] [] [] [] [] []]. Qed.

Lemma match_star_space (s : string) (pos : nat) :
  Re.match_here [Re.NStar Re.ASpace] pos s = Some (count_ws s).
Proof.
  revert pos. induction s as [|c r IH]; intros pos; [done|].
  rewrite match_star_cons, IH. simpl. by destruct (is_space c).
Qed.

Lemma sep_len_None (s : string) : sep_len s = None -> count_ws s = 0.
Proof.
  destruct s as [|c r]; [done|]. simpl.
  destruct (is_space c); [|done]. by destruct (sep_len r).
Qed.

Lemma match_separator (s : string) (pos : nat) :
  Re.match_here separator_nodes pos s = sep_len s.
Proof.
  unfold separator_nodes. revert pos.
  induction s as [|c r IH]; intros pos; [done|].
  rewrite match_star_cons, IH, match_atom_cons, set_matches, match_star_space.
  simpl Re.atom_matches. simpl sep_len.
  destruct (is_space c) eqn:Hc.
  - rewrite orb_true_r. destruct (sep_len r) eqn:Hr; [done|].
    simpl. by rewrite (sep_len_None r Hr).
  - rewrite orb_false_r. by destruct (is_colon_or_hyphen c).
Qed.

Lemma match_lits (issuer : string) (p : list Re.node) (pos : nat) (s : string) :
  Re.match_here (lits issuer ++ p) pos s =
  match ci_strip issuer s with
  | Some r => (fun n => String.length issuer + n) <$> Re.match_here p (pos + String.length issuer) r
  | None => None
  end.
Proof.
  revert pos s. induction issuer as [|a issuer IH]; intros pos s.
  - simpl. rewrite Nat.add_0_r. by destruct (Re.match_here p pos s).
  - simpl lits. simpl app. destruct s as [|b s]; [done|].
    rewrite match_atom_cons. simpl. unfold ci_char.
    destruct (Ascii.eqb (lower a) (lower b)); [|done].
    rewrite IH. destruct (ci_strip issuer s) as [r|]; [|done].
    replace (S pos + String.length issuer) with (pos + S (String.length issuer)) by lia.
    by destruct (Re.match_here p _ r).
Qed.

Lemma match_issuer_pattern (issuer s : string) :
  Re.match_here (issuer_pattern issuer) 0 s =
  match ci_strip issuer s with
  | Some r => (fun n => String.length issuer + n) <$> sep_len r
  | None => None
  end.
Proof.
  unfold issuer_pattern. simpl Re.match_here at 1.
  change (Re.match_here (lits issuer ++ separator_nodes) 0 s = 
          match ci_strip issuer s with
          | Some r => (fun n => String.length issuer + n) <$> sep_len r
          | None => None
          end).
  rewrite match_lits. destruct (ci_strip issuer s); [|done].
  by rewrite match_separator.
Qed.

Lemma sub_go_anchored (p : list Re.node) (k pos : nat) (s : string) :
  Re.sub_go (Re.NBegin :: p) k (S pos) s = drop_chars k s.
Proof.
  revert k pos. induction s as [|c r IH]; intros k pos; [by destruct k|].
  destruct k as [|k]; simpl; [|apply IH].
  f_equal. rewrite IH. by destruct r.
Qed.

Lemma sub_empty_anchored (p : list Re.node) (s : string) :
  Re.sub_empty (Re.NBegin :: p) s =
  match Re.match_here (Re.NBegin :: p) 0 s with
  | Some n => drop_chars n s
  | None => s
  end.
Proof.
  unfold Re.sub_empty. destruct s as [|c r].
  { simpl. by destruct (Re.match_here p 0 "") as [[|n]|]. }
  simpl Re.sub_go.
  change (match Re.match_here (Re.NBegin :: p) 0 (String c r) with
          | Some (S n) => Re.sub_go (Re.NBegin :: p) n 1 r
          | _ => String c (Re.sub_go (Re.NBegin :: p) 0 1 r)
          end = match Re.match_here (Re.NBegin :: p) 0 (String c r) with
                | Some n => drop_chars n (String c r)
                | None => String c r
                end).
  destruct (Re.match_here (Re.NBegin :: p) 0 (String c r)) as [[|n]|];
    rewrite sub_go_anchored; simpl; try done; by destruct r.
Qed.

Lemma ci_strip_drop (issuer s r : string) :
  ci_strip issuer s = Some r -> r = drop_chars (String.length issuer) s.
Proof.
  revert s. induction issuer as [|a issuer IH]; intros s H; simpl in *.
  - by injection H as <-.
  - destruct s as [|b s]; [done|]. destruct (ci_char a b); [|done]. by apply IH.
Qed.

Lemma strip_issuer_from_name_cleaned (name issuer : string) :
  name <> "" -> issuer <> "" ->
  strip_issuer_from_name (PStr name) (PStr issuer) = Ok (strip (cleaned issuer name)).
Proof.
  intros Hn Hi. unfold strip_issuer_from_name. simpl truthy.
  apply String.eqb_neq in Hn, Hi. rewrite Hn, Hi. simpl.
  unfold re_compile. rewrite compile_issuer_pattern. simpl.
  do 2 f_equal. unfold issuer_pattern. rewrite sub_empty_anchored.
  fold (issuer_pattern issuer). rewrite match_issuer_pattern. unfold cleaned.
  destruct (ci_strip issuer name) as [r|] eqn:Hr; [|done].
  destruct (sep_len r) as [n|]; [|done]. simpl.
  by rewrite drop_chars_add, <- (ci_strip_drop _ _ _ Hr).
Qed.

(** ** Facts about the issuer prefix *)

Lemma ci_equal_length (p issuer : string) :
  ci_equal p issuer = true -> String.length p = String.length issuer.
Proof.
  revert issuer. induction p as [|a p IH]; intros [|b issuer] H; try done.
  simpl in *. apply andb_true_iff in H as [_ H]. by rewrite (IH _ H).
Qed.

Lemma ci_strip_append (p issuer r : string) :
  ci_equal p issuer = true -> ci_strip issuer (p +:+ r) = Some r.
Proof.
  revert issuer. induction p as [|a p IH]; intros [|b issuer] H; try done.
  simpl in H. apply andb_true_iff in H as [Hc H].
  rewrite append_cons. simpl. rewrite Hc. by apply IH.
Qed.

Lemma ci_strip_split (issuer s r : string) :
  ci_strip issuer s = Some r -> exists p, s = p +:+ r /\ ci_equal p issuer = true.
Proof.
  revert s. induction issuer as [|a issuer IH]; intros s H; simpl in H.
  - injection H as <-. by exists "".
  - destruct s as [|b s]; [done|]. destruct (ci_char a b) eqn:Hc; [|done].
    destruct (IH _ H) as (p & -> & Hp). exists (String b p). split; [done|].
    simpl. by rewrite Hc, Hp.
Qed.

Lemma count_ws_append (ws rest : string) :
  all_space ws = true -> String.length ws <= count_ws (ws +:+ rest).
Proof.
  induction ws as [|c ws IH]; intros H; [simpl; lia|]. simpl in H.
  apply andb_true_iff in H as [Hc H]. rewrite append_cons. simpl.
  rewrite Hc. specialize (IH H). lia.
Qed.

Lemma count_ws_split (s : string) :
  exists ws, s = ws +:+ drop_chars (count_ws s) s /\
             String.length ws = count_ws s /\ all_space ws = true.
Proof.
  induction s as [|c s (ws & Hs & Hl & Hw)]; [by exists ""|].
  simpl count_ws. destruct (is_space c) eqn:Hc.
  - exists (String c ws). rewrite append_cons. simpl. by rewrite <- Hs, Hl, Hc, Hw.
  - by exists "".
Qed.

Lemma sep_len_space_run (ws rest : string) :
  all_space ws = true ->
  match sep_len (ws +:+ rest) with
  | Some n => String.length ws <= n
  | None => ws = ""
  end.
Proof.
  induction ws as [|c ws IH]; intros H.
  - rewrite append_nil_l. destruct (sep_len rest); simpl; [lia|done].
  - simpl in H. apply andb_true_iff in H as [Hc H]. specialize (IH H).
    rewrite append_cons. simpl. rewrite Hc.
    destruct (sep_len (ws +:+ rest)); [lia|]. subst ws. simpl. lia.
Qed.

Lemma sep_len_lower_bound (ws1 : string) (c : ascii) (ws2 rest : string) :
  all_space ws1 = true -> is_separator c = true -> all_space ws2 = true ->
  exists n, sep_len (ws1 +:+ String c (ws2 +:+ rest)) = Some n /\
            String.length ws1 + 1 + String.length ws2 <= n.
Proof.
  intros H1 Hc H2. induction ws1 as [|a ws1 IH].
  - rewrite append_nil_l. simpl. destruct (is_space c) eqn:Hs.
    + pose proof (sep_len_space_run ws2 rest H2) as Hr.
      destruct (sep_len (ws2 +:+ rest)) as [n|]; eexists; split; try done;
        [lia | subst ws2; simpl; lia].
    + unfold is_separator in Hc. rewrite Hs, orb_false_r in Hc.
      unfold is_colon_or_hyphen. rewrite Hc. eexists. split; [done|].
      pose proof (count_ws_append ws2 rest H2). lia.
  - simpl in H1. apply andb_true_iff in H1 as [Ha H1].
    destruct (IH H1) as (n & Hn & Hle). rewrite append_cons. simpl.
    rewrite Ha, Hn. eexists. split; [done|]. lia.
Qed.

Lemma sep_len_split (r : string) (n : nat) :
  sep_len r = Some n ->
  exists ws1 c ws2,
    r = (ws1 +:+ String c ws2) +:+ drop_chars n r /\
    String.length (ws1 +:+ String c ws2) = n /\
    all_space ws1 = true /\ is_separator c = true /\ all_space ws2 = true.
Proof.
  revert n. induction r as [|c r IH]; intros n H; [done|]. simpl in H.
  destruct (is_space c) eqn:Hs.
  - destruct (sep_len r) as [m|] eqn:Hr.
    + injection H as <-. destruct (IH m eq_refl) as (ws1 & d & ws2 & Hr' & Hl & H1 & Hd & H2).
      exists (String c ws1), d, ws2. rewrite !append_cons. simpl.
      by rewrite <- Hr', Hs, H1, Hl.
    + injection H as <-. exists "", c, "". simpl. unfold is_separator.
      rewrite Hs, orb_true_r. split; [by destruct r|done].
  - destruct (is_colon_or_hyphen c) eqn:Hc; [|done]. injection H as <-.
    destruct (count_ws_split r) as (ws & Hr & Hl & Hw).
    exists "", c, ws. rewrite append_nil_l, append_cons. simpl.
    rewrite <- Hr, Hl, Hw. unfold is_separator. unfold is_colon_or_hyphen in Hc.
    by rewrite Hc.
Qed.

Lemma issuer_prefix_found (issuer name pre rest : string) :
  name = pre +:+ rest -> issuer_prefix issuer pre ->
  exists r n, ci_strip issuer name = Some r /\ sep_len r = Some n /\
              String.length pre <= String.length issuer + n.
Proof.
  intros -> (p & ws1 & c & ws2 & -> & Hp & H1 & Hc & H2).
  destruct (sep_len_lower_bound ws1 c ws2 rest H1 Hc H2) as (n & Hn & Hle).
  exists (ws1 +:+ String c (ws2 +:+ rest)), n.
  rewrite !append_assoc, append_cons. split; [by apply ci_strip_append|].
  split; [done|]. rewrite !length_append. simpl.
  rewrite (ci_equal_length _ _ Hp). lia.
Qed.

Lemma strip_issuer_longest (name issuer : string) :
  name <> "" -> issuer <> "" ->
  removes_issuer_prefix name issuer (strip_issuer_from_name (PStr name) (PStr issuer)).
Proof.
  intros Hn Hi. unfold removes_issuer_prefix. rewrite (strip_issuer_from_name_cleaned _ _ Hn Hi). unfold cleaned.
  destruct (ci_strip issuer name) as [r|] eqn:Hr.
  - destruct (sep_len r) as [n|] eqn:Hs.
    + left. destruct (ci_strip_split _ _ _ Hr) as (p & Hname & Hp).
      destruct (sep_len_split _ _ Hs) as (ws1 & c & ws2 & Hr' & Hl & H1 & Hc & H2).
      exists (p +:+ ws1 +:+ String c ws2), (drop_chars n r).
      split; [by rewrite append_assoc, <- Hr'|].
      split; [by exists p, ws1, c, ws2|]. split; [|done].
      intros pre' rest' Hname' Hpre'.
      destruct (issuer_prefix_found _ _ _ _ Hname' Hpre') as (r' & n' & Hr2 & Hs2 & Hle).
      rewrite Hr in Hr2. injection Hr2 as <-. rewrite Hs in Hs2. injection Hs2 as <-.
      rewrite length_append, Hl, (ci_equal_length _ _ Hp). lia.
    + right. split; [|done]. intros pre rest Hname Hpre.
      destruct (issuer_prefix_found _ _ _ _ Hname Hpre) as (r' & n' & Hr2 & Hs2 & _).
      congruence.
  - right. split; [|done]. intros pre rest Hname Hpre.
    destruct (issuer_prefix_found _ _ _ _ Hname Hpre) as (r' & n' & Hr2 & _).
    congruence.
Qed.

Lemma colon_or_hyphen_not_space (c : ascii) :
  is_colon_or_hyphen c = true -> is_space c = false.
Proof.
  unfold is_colon_or_hyphen. intros [H|H]%orb_true_iff;
    apply Ascii.eqb_eq in H; by subst c.
Qed.

Lemma lstrip_idempotent (s : string) : lstrip (lstrip s) = lstrip s.
Proof.
  induction s as [|c s IH]; [done|]. simpl. destruct (is_space c) eqn:Hc; [done|].
  simpl. by rewrite Hc.
Qed.

Lemma strip_lstrip (s : string) : strip (lstrip s) = strip s.
Proof. unfold strip. by rewrite lstrip_idempotent. Qed.

Lemma lstrip_all_space (ws s : string) :
  all_space ws = true -> lstrip (ws +:+ s) = lstrip s.
Proof.
  induction ws as [|c ws IH]; intros H; [done|]. simpl in H.
  apply andb_true_iff in H as [Hc H]. rewrite append_cons. simpl. rewrite Hc. by apply IH.
Qed.

Lemma drop_count_ws (s : string) : drop_chars (count_ws s) s = lstrip s.
Proof.
  induction s as [|c s IH]; [done|]. simpl. by destruct (is_space c).
Qed.

Lemma sep_len_None_lstrip (s : string) :
  sep_len s = None -> lstrip s = s /\ separator_follows s = false.
Proof.
  unfold separator_follows. destruct s as [|c r]; [done|]. simpl.
  destruct (is_space c) eqn:Hc; [by destruct (sep_len r)|].
  by destruct (is_colon_or_hyphen c).
Qed.

(** After the separator has been dropped, the text continues behind the
    colon or hyphen that followed the white space, if there was one. *)
Lemma lstrip_drop_sep_len (s : string) (n : nat) :
  sep_len s = Some n ->
  lstrip (drop_chars n s) =
  match lstrip s with
  | String c r => if is_colon_or_hyphen c then lstrip r else lstrip s
  | EmptyString => EmptyString
  end.
Proof.
  revert n. induction s as [|c r IH]; intros n H; [done|]. simpl in H.
  destruct (is_space c) eqn:Hc.
  - assert (E : lstrip (String c r) = lstrip r) by (simpl; by rewrite Hc).
    rewrite E. destruct (sep_len r) as [m|] eqn:Hr.
    + injection H as <-. simpl drop_chars. by apply IH.
    + injection H as <-. simpl drop_chars. replace (drop_chars 0 r) with r by by destruct r.
      destruct (sep_len_None_lstrip r Hr) as [Hl Hf]. unfold separator_follows in Hf.
      rewrite Hl in *. destruct r as [|d r]; [done|]. by rewrite Hf.
  - destruct (is_colon_or_hyphen c) eqn:Hs; [|done]. injection H as <-.
    simpl. rewrite Hc, Hs, drop_count_ws. apply lstrip_idempotent.
Qed.

Lemma strip_issuer_at_separator (issuer p ws1 : string) (c : ascii) (ws2 rest : string) :
  issuer <> "" -> ci_equal p issuer = true ->
  all_space ws1 = true -> all_space ws2 = true ->
  is_colon_or_hyphen c = true \/ (is_space c = true /\ separator_follows rest = false) ->
  strip_issuer_from_name (PStr (p +:+ ws1 +:+ String c (ws2 +:+ rest))) (PStr issuer)
  = Ok (strip rest).
Proof.
  intros Hi Hp H1 H2 Hc.
  assert (Hname : p +:+ ws1 +:+ String c (ws2 +:+ rest) <> "").
  { destruct p as [|a p]; [by destruct issuer|done]. }
  rewrite (strip_issuer_from_name_cleaned _ _ Hname Hi). unfold cleaned.
  rewrite (ci_strip_append _ _ _ Hp).
  assert (Hsep : is_separator c = true).
  { unfold is_separator. unfold is_colon_or_hyphen in Hc.
    destruct Hc as [->|[-> _]]; [done|apply orb_true_r]. }
  destruct (sep_len_lower_bound ws1 c ws2 rest H1 Hsep H2) as (n & Hn & _).
  rewrite Hn. f_equal. rewrite <- strip_lstrip, (lstrip_drop_sep_len _ _ Hn).
  rewrite (lstrip_all_space _ _ H1). destruct Hc as [Hc|[Hc Hf]].
  - simpl. rewrite (colon_or_hyphen_not_space _ Hc), Hc.
    by rewrite (lstrip_all_space _ _ H2), strip_lstrip.
  - simpl. rewrite Hc, (lstrip_all_space _ _ H2). unfold separator_follows in Hf.
    destruct (lstrip rest) as [|d r] eqn:Hl.
    + unfold strip. by rewrite Hl.
    + rewrite Hf, <- Hl. apply strip_lstrip.
Qed.

(** ** Facts about the resolver *)

Lemma split_on_go_before_first (c : ascii) (s : string) :
  (split_on_go c s).1 = before_first c s.
Proof.
  induction s as [|d r IH]; [done|]. simpl.
  destruct (split_on_go c r) as [w ws]. simpl in IH. subst w.
  by destruct (Ascii.eqb d c).
Qed.

Lemma first_split_on (c : ascii) (s : string) :
  first (split_on c s) = Ok (before_first c s).
Proof.
  unfold split_on. pose proof (split_on_go_before_first c s) as H.
  destruct (split_on_go c s) as [w ws]. simpl in *. by subst w.
Qed.

Lemma name_step (name : string) (issuer : pyval) :
  (b ← py_in ":" (PStr name);
   if b : bool then
     parts ← str_split_on ":" (PStr name);
     head ← first parts;
     Ok (PStr (strip head))
   else Ok issuer)
  = Ok (if contains ":" name then PStr (strip (before_first ":" name)) else issuer).
Proof.
  unfold py_in, str_split_on. cbv beta iota delta [mbind result_bind].
  rewrite first_split_on. by destruct (contains ":" name).
Qed.

Lemma typed_fields (token : gmap string pyval) (k : string) :
  is_text token k = true ->
  token !! k = None \/ exists s, token !! k = Some (PStr s).
Proof.
  unfold is_text. destruct (token !! k) as [[]|]; try done; eauto.
Qed.

Ltac split_typed H :=
  repeat match type of H with
         | _ && _ = true => let H' := fresh "Ht" in apply andb_true_iff in H as [H H']
         end.

Ltac case_field token k H :=
  let s := fresh "s" in
  let E := fresh "E" in
  destruct (typed_fields token k H) as [E|[s E]].

Lemma hint_step (token : gmap string pyval) (k prefix : string) (issuer : pyval) :
  is_optional_text token k = true ->
  (if negb (truthy issuer) then
     let hint := dict_get token k PNone in
     if truthy hint then
       b ← str_startswith hint prefix;
       Ok (if negb b then hint else issuer)
     else Ok issuer
   else Ok issuer)
  = Ok (pick issuer (usable_hint prefix (text token k))).
Proof.
  intros H. unfold pick, usable_hint, text, dict_get, nonempty.
  destruct (truthy issuer); [done|]. simpl negb. cbv zeta.
  unfold is_optional_text in H.
  destruct (token !! k) as [[| | |s| |]|]; try discriminate H; simpl;
    try by destruct (startswith prefix "").
  destruct (String.eqb_spec s ""); simpl.
  - subst s. by destruct (startswith prefix "").
  - destruct (startswith prefix s); simpl; [done|].
    by destruct (String.eqb_spec s "").
Qed.

Lemma first_nonempty_last (s : string) : first_nonempty [s] = s.
Proof. simpl. unfold nonempty. by destruct (String.eqb_spec s "") as [->|]. Qed.

Lemma name_steps (name : string) (issuer : pyval) :
  (issuer ← (if negb (truthy issuer) then
                let name := PStr name in
                b ← py_in ":" name;
                if b : bool then
                  parts ← str_split_on ":" name;
                  head ← first parts;
                  Ok (PStr (strip head))
                else Ok issuer
              else Ok issuer);
   if negb (truthy issuer) then PStr <$> str_strip (PStr name) else Ok issuer)
  = Ok (if truthy issuer then issuer
        else PStr (first_nonempty [before_colon name; strip name])).
Proof.
  cbv zeta. rewrite name_step.
  change (first_nonempty [before_colon name; strip name])
    with (if nonempty (before_colon name) then before_colon name
          else first_nonempty [strip name]).
  rewrite first_nonempty_last. unfold before_colon, nonempty.
  destruct (truthy issuer) eqn:Hi; simpl.
  { by rewrite Hi. }
  destruct (contains ":" name); simpl; [|by rewrite Hi].
  by destruct (String.eqb_spec (strip (before_first ":" name)) "").
Qed.

Lemma pick_chain (issuer : pyval) (t0 u1 u2 u3 : string) :
  (issuer = PNone /\ t0 = "") \/ issuer = PStr t0 ->
  (let picked := pick (pick issuer u1) u2 in
   if truthy picked then picked else PStr u3)
  = PStr (first_nonempty [t0; u1; u2; u3]).
Proof.
  intros H.
  change (first_nonempty [t0; u1; u2; u3])
    with (if nonempty t0 then t0 else if nonempty u1 then u1
          else if nonempty u2 then u2 else first_nonempty [u3]).
  rewrite first_nonempty_last. unfold pick, nonempty. cbv zeta.
  destruct H as [[-> ->]| ->]; simpl;
    repeat match goal with
           | |- context [String.eqb ?x ""] => destruct (String.eqb_spec x ""); simpl
           end; done.
Qed.

Lemma first_nonempty_nested (l l' : list string) :
  first_nonempty (l ++ [first_nonempty l']) = first_nonempty (l ++ l').
Proof.
  induction l as [|s l IH]; simpl; [apply first_nonempty_last|].
  by destruct (nonempty s).
Qed.

Lemma resolve_issuer_chain (token : gmap string pyval) :
  resolver_typed token = true ->
  resolve_issuer token = Ok (PStr (issuer_chain token)).
Proof.
  intros H. unfold resolver_typed in H. split_typed H.
  unfold resolve_issuer. cbv zeta.
  rewrite (hint_step token "logo" "authenticator_" _ Ht1).
  cbn [mbind result_bind].
  rewrite (hint_step token "account_type" "authenticator" _ Ht0).
  cbn [mbind result_bind].
  assert (Hn : dict_get token "name" (PStr "") = PStr (text token "name")).
  { unfold dict_get, text. by case_field token "name" Ht; rewrite E. }
  rewrite Hn.
  pose proof (name_steps (text token "name")) as Hs. cbv zeta in Hs.
  rewrite Hs. f_equal. unfold issuer_chain.
  pose proof (pick_chain (dict_get token "issuer" PNone) (text token "issuer")) as Hp.
  cbv zeta in Hp. rewrite Hp.
  - f_equal. apply (first_nonempty_nested [_; _; _] [_; _]).
  - unfold dict_get, text. unfold is_optional_text in H.
    destruct (token !! "issuer") as [[]|]; try discriminate H; eauto.
Qed.

(** ** Facts about title-casing *)

Lemma push_word_nonempty (w : string) (ws : list string) :
  Forall (fun v => v <> "") ws -> Forall (fun v => v <> "") (push_word w ws).
Proof. intros H. destruct w; [done|]. by constructor. Qed.

Lemma split_ws_go_nonempty (s : string) :
  Forall (fun v => v <> "") (split_ws_go s).2.
Proof.
  induction s as [|c r IH]; simpl; [constructor|].
  destruct (split_ws_go r) as [w ws]. simpl in IH.
  destruct (is_space c); simpl; [by apply push_word_nonempty|done].
Qed.

Lemma split_ws_nonempty (s : string) : Forall (fun v => v <> "") (split_ws s).
Proof.
  unfold split_ws. pose proof (split_ws_go_nonempty s) as H.
  destruct (split_ws_go s) as [w ws]. by apply push_word_nonempty.
Qed.

Lemma capitalize_at_middle (seen : list string) (w : string) (todo : list string) :
  w <> "" ->
  capitalize_at (seen ++ w :: todo) (length seen) = Ok (seen ++ capitalize_word w :: todo).
Proof.
  intros Hw. unfold capitalize_at. rewrite list_lookup_middle by done.
  destruct w as [|c r]; [done|]. simpl. destruct (is_lower c); [|done].
  f_equal. replace (length seen) with (length seen + 0) at 1 by lia.
  by rewrite insert_app_r.
Qed.

Lemma for_range_capitalizes (seen todo : list string) :
  Forall (fun v => v <> "") todo ->
  for_range (seq (length seen) (length todo)) (seen ++ todo)
  = Ok (seen ++ (capitalize_word <$> todo)).
Proof.
  revert seen. induction todo as [|w todo IH]; intros seen H; [done|].
  inversion H as [|? ? Hw Htodo]; subst. simpl.
  rewrite (capitalize_at_middle seen w todo Hw). cbn [mbind result_bind].
  specialize (IH (seen ++ [capitalize_word w]) Htodo).
  rewrite length_app, Nat.add_1_r, <- !app_assoc in IH. apply IH.
Qed.

Lemma title_case_text (s : string) :
  title_case (PStr s) = Ok (PStr (title_case_words s)).
Proof.
  unfold title_case, title_case_words. simpl truthy.
  destruct (String.eqb_spec s "") as [->|]; [done|]. simpl.
  pose proof (for_range_capitalizes [] _ (split_ws_nonempty s)) as H.
  simpl in H. by rewrite H.
Qed.

(** ** Facts about the URI builder *)

Lemma strip_issuer_clean (name issuer : string) :
  strip_issuer_from_name (PStr name) (PStr issuer) = Ok (clean_name issuer name).
Proof.
  unfold clean_name, nonempty.
  destruct (String.eqb_spec name "") as [->|Hn]; [done|].
  destruct (String.eqb_spec issuer "") as [->|Hi]; simpl.
  - unfold strip_issuer_from_name. simpl. apply String.eqb_neq in Hn. by rewrite Hn.
  - by apply strip_issuer_from_name_cleaned.
Qed.

Lemma dict_get_text (token : gmap string pyval) (k : string) :
  is_text token k = true -> dict_get token k (PStr "") = PStr (text token k).
Proof. intros H. unfold dict_get, text. by case_field token k H; rewrite E. Qed.

Lemma dict_get_digits (token : gmap string pyval) :
  is_int token "digits" = true ->
  dict_get token "digits" (PInt 6) = PInt (digits_of token).
Proof.
  unfold is_int, dict_get, digits_of. by destruct (token !! "digits") as [[]|].
Qed.

Lemma generate_typed (render : pyval -> string) (token : gmap string pyval) :
  builder_typed token = true ->
  generate_otpauth_uri render token = Ok (uri_of token).
Proof.
  intros H. unfold builder_typed in H. split_typed H.
  unfold generate_otpauth_uri, uri_of, label_of, query_params, secret_param,
    issuer_param, digits_param, account_of. cbv zeta.
  rewrite (dict_get_text _ _ H), (dict_get_text _ _ Ht1), (dict_get_text _ _ Ht0),
    (dict_get_digits _ Ht), strip_issuer_clean.
  cbn [mbind result_bind truthy py_str py_quote str_strip].
  fold (nonempty (clean_name (text token "issuer") (text token "name"))).
  fold (nonempty (text token "issuer")). fold (nonempty (text token "decrypted_seed")).
  assert (Hacc : (if String.eqb (clean_name (text token "issuer") (text token "name")) ""
                  then Ok (strip (text token "name"))
                  else Ok (clean_name (text token "issuer") (text token "name")))
                 = Ok (if nonempty (clean_name (text token "issuer") (text token "name"))
                       then clean_name (text token "issuer") (text token "name")
                       else strip (text token "name"))).
  { unfold nonempty. by destruct (String.eqb _ ""). }
  rewrite Hacc. cbn [mbind result_bind].
  destruct (nonempty (text token "decrypted_seed")),
    (nonempty (text token "issuer")), (digits_of token =? 0)%Z; reflexivity.
Qed.

Lemma query_params_last (token : gmap string pyval) :
  last (query_params token) = Some "algorithm=SHA1".
Proof. unfold query_params. by rewrite !app_assoc, last_snoc. Qed.

Lemma text_absent (token : gmap string pyval) (k : string) :
  token !! k = None -> text token k = "".
Proof. intros H. unfold text. by rewrite H. Qed.

Lemma no_issuer_param (token : gmap string pyval) (p : string) :
  text token "issuer" = "" -> p ∈ query_params token -> startswith "issuer=" p = false.
Proof.
  intros H. unfold query_params, issuer_param, secret_param, digits_param.
  rewrite H. cbv zeta. change (nonempty "") with false. cbv iota.
  destruct (nonempty _), (_ =? _)%Z; simpl; intros Hp;
    repeat (apply elem_of_cons in Hp as [->|Hp]; [reflexivity|]);
    by apply elem_of_nil in Hp.
Qed.

Lemma no_secret_param (token : gmap string pyval) (p : string) :
  text token "decrypted_seed" = "" -> p ∈ query_params token ->
  startswith "secret=" p = false.
Proof.
  intros H. unfold query_params, issuer_param, secret_param, digits_param.
  rewrite H. cbv zeta. change (nonempty "") with false. cbv iota.
  destruct (nonempty _), (_ =? _)%Z; simpl; intros Hp;
    repeat (apply elem_of_cons in Hp as [->|Hp]; [reflexivity|]);
    by apply elem_of_nil in Hp.
Qed.

Lemma no_digits_param (token : gmap string pyval) (p : string) :
  digits_of token = 0%Z -> p ∈ query_params token -> startswith "digits=" p = false.
Proof.
  intros H. unfold query_params, issuer_param, secret_param, digits_param.
  rewrite H. cbv zeta. simpl Z.eqb. cbv iota.
  destruct (nonempty _), (nonempty _); simpl; intros Hp;
    repeat (apply elem_of_cons in Hp as [->|Hp]; [reflexivity|]);
    by apply elem_of_nil in Hp.
Qed.

Lemma default_digits_param (token : gmap string pyval) :
  token !! "digits" = None -> "digits=6" ∈ query_params token.
Proof.
  intros H. unfold query_params, digits_param, digits_of. rewrite H. simpl.
  rewrite !elem_of_app. right. right. apply elem_of_cons. by left.
Qed.

Lemma generate_params (render : pyval -> string) (token : gmap string pyval)
    (uri : string) :
  generate_otpauth_uri render token = Ok uri ->
  exists label,
    uri = "otpauth://totp/" +:+ label +:+ "?" +:+ join "&" (params_of render token).
Proof.
  unfold generate_otpauth_uri, params_of. cbv zeta.
  destruct (strip_issuer_from_name _ _) as [account|]; [|done].
  cbn [mbind result_bind].
  destruct (if String.eqb account "" then _ else _) as [account'|]; [|done].
  cbn [mbind result_bind].
  set (label := Urllib.quote _). clearbody label.
  destruct (truthy (dict_get token "issuer" (PStr ""))).
  - destruct (dict_get token "issuer" (PStr "")) as [| | |s| |]; try done.
    cbn [mbind result_bind py_quote].
    destruct (truthy (dict_get token "decrypted_seed" _)), (truthy (dict_get token "digits" _));
      intros [= <-]; by exists label.
  - cbn [mbind result_bind].
    destruct (truthy (dict_get token "decrypted_seed" _)), (truthy (dict_get token "digits" _));
      intros [= <-]; by exists label.
Qed.

(** ** Facts about the driver *)

Lemma confirm_issuer_prompts (token : gmap string pyval) (issuer : pyval)
    (w : world) (line : string) (rest : list keyboard) :
  stdin w = Line line :: rest ->
  confirm_issuer true token issuer w =
  (World (files w) rest
     (log w ++ [(INFO, MBlank); (WARN, MNoIssuer (dict_get token "name" PNone));
                (INFO, MProposed issuer)]) (faults w),
   Ok (if nonempty (strip line) then PStr (strip line) else issuer)).
Proof.
  intros H. unfold confirm_issuer, bindM, logger, input, retM. simpl.
  rewrite H. by rewrite <- !app_assoc.
Qed.

Lemma convert_without_tokens (render : pyval -> string)
    (json_loads : string -> string + pyval) (input_file output_file : string)
    (interactive : bool) (w : world) :
  no_tokens_in json_loads w input_file ->
  exists m,
    convert_tokens render json_loads input_file output_file interactive w =
    (World (files w) (stdin w) (log w ++ [(ERROR, m)]) (faults w), Ok tt).
Proof.
  intros [H|text detail H Hl|text data H Hl Hd];
    unfold convert_tokens, convert_body, bindM, read_file, liftM; rewrite H.
  - by eexists.
  - rewrite Hl. by eexists.
  - rewrite Hl. destruct data as [| | | | |d]; simpl; try by eexists.
    simpl in Hd. apply negb_true_iff in Hd. rewrite Hd. by eexists.
Qed.

Lemma ci_equal_refl (s : string) : ci_equal s s = true.
Proof.
  induction s as [|c s IH]; [done|]. simpl. unfold ci_char.
  by rewrite Ascii.eqb_refl, IH.
Qed.

(** * The claims *)

(** C1. The issuer is resolved by an ordered fallback chain, each step tried
    only if the previous ones produced nothing: the explicit [issuer], the
    [logo] unless it starts with [authenticator_], the [account_type] unless
    it starts with [authenticator], the part of [name] before a colon, the
    trimmed [name].  In particular a non-empty explicit issuer is the result
    as it stands, and without one a usable logo is the result whatever the
    account type is.  The chain as a whole is stated for a name of ASCII
    characters, which its last two steps trim. *)
Theorem issuer_fallback_chain :
  (forall token : gmap string pyval,
     resolver_typed token = true ->
     ascii_text (text token "name") = true ->
     resolve_issuer token = Ok (PStr (issuer_chain token))) /\
  (forall (token : gmap string pyval) (s : string),
     token !! "issuer" = Some (PStr s) -> s <> "" ->
     resolve_issuer token = Ok (PStr s)) /\
  (forall (token : gmap string pyval) (l : string),
     truthy (dict_get token "issuer" PNone) = false ->
     token !! "logo" = Some (PStr l) -> l <> "" ->
     startswith "authenticator_" l = false ->
     resolve_issuer token = Ok (PStr l)).
Proof.
  split; [intros token H _; by apply resolve_issuer_chain|]. split.
  - intros token s Hs Hne. apply String.eqb_neq in Hne.
    unfold resolve_issuer, dict_get. rewrite Hs.
    by do 4 (simpl; rewrite ?Hne).
  - intros token l Hi Hl Hne Hp. apply String.eqb_neq in Hne.
    unfold resolve_issuer. cbv zeta. rewrite Hi.
    assert (Hlogo : dict_get token "logo" PNone = PStr l) by (unfold dict_get; by rewrite Hl).
    rewrite Hlogo. by do 4 (simpl; rewrite ?Hne, ?Hp).
Qed.

(** C2. For a non-empty name and a non-empty issuer, [strip_issuer_from_name]
    removes from the start of the name an occurrence of the issuer text, up
    to the case of letters and character by character, followed by a colon, a
    hyphen or white space with optional white space around it, and returns the
    rest trimmed; with an empty issuer it returns the trimmed name.  The
    characters of the issuer stand for themselves, a dot included.  Name and
    issuer are ASCII text. *)
Theorem strip_issuer_from_name_spec :
  (forall name issuer : string, name <> "" -> issuer <> "" ->
     ascii_text name = true -> ascii_text issuer = true ->
     removes_issuer_prefix name issuer
       (strip_issuer_from_name (PStr name) (PStr issuer))) /\
  (forall name : string,
     ascii_text name = true ->
     strip_issuer_from_name (PStr name) (PStr "") = Ok (strip name)) /\
  strip_issuer_from_name (PStr "Acme: Email") (PStr "Acme") = Ok "Email" /\
  strip_issuer_from_name (PStr "ACME-jsmith") (PStr "Acme") = Ok "jsmith" /\
  strip_issuer_from_name (PStr "abc: x") (PStr "a.c") = Ok "abc: x" /\
  strip_issuer_from_name (PStr "A.C: x") (PStr "a.c") = Ok "x".
Proof.
  split; [intros name issuer Hn Hi _ _; by apply strip_issuer_longest|].
  split; [|by vm_compute].
  intros name _. rewrite strip_issuer_clean. unfold clean_name.
  by rewrite andb_false_r.
Qed.

(** C3. [generate_otpauth_uri] emits the query parameters in the order
    secret, issuer, digits, each only when its source value is truthy, and
    then always [algorithm=SHA1]: so whenever it returns, and it does return
    that URI on a token with text fields and integer digits; the two tokens
    of the specification give exactly the two URIs written there. *)
Theorem uri_parameter_order :
  (forall render token uri,
     generate_otpauth_uri render token = Ok uri ->
     exists label,
       uri = "otpauth://totp/" +:+ label +:+ "?" +:+ join "&" (params_of render token)) /\
  (forall render token,
     builder_typed token = true ->
     generate_otpauth_uri render token =
     Ok ("otpauth://totp/" +:+ Urllib.quote (label_of token) +:+ "?" +:+
         join "&" (secret_param token ++ issuer_param token ++ digits_param token ++
                   ["algorithm=SHA1"]))) /\
  (forall render,
     generate_otpauth_uri render acme_token =
     Ok "otpauth://totp/Acme%3Ajsmith?secret=SECRET123&issuer=Acme&digits=6&algorithm=SHA1") /\
  (forall render,
     generate_otpauth_uri render jsmith_token =
     Ok "otpauth://totp/jsmith?secret=SECRET123&digits=8&algorithm=SHA1").
Proof.
  split; [exact generate_params|]. split; [exact generate_typed|].
  split; intros render; by vm_compute.
Qed.

(** C4, as amended.  The default of 6 applies to a token without a [digits]
    field, whose URI then carries [digits=6]; a token whose [digits] is
    present and zero gets no digits parameter at all. *)
Theorem digits_default_when_absent (render : pyval -> string)
    (token : gmap string pyval) :
  builder_typed token = true ->
  generate_otpauth_uri render token = Ok (uri_of token) /\
  (token !! "digits" = None -> "digits=6" ∈ query_params token) /\
  (token !! "digits" = Some (PInt 0) ->
   forall p, p ∈ query_params token -> startswith "digits=" p = false).
Proof.
  intros H. split; [by apply generate_typed|]. split.
  - apply default_digits_param.
  - intros Hd p. apply no_digits_param. unfold digits_of. by rewrite Hd.
Qed.

(** C5. Title-casing splits the issuer on white space, capitalizes the first
    character of each word that starts with a lowercase letter and leaves the
    rest of the word and every other word alone, and joins the words with
    single spaces.  The issuer is ASCII text. *)
Theorem title_case_spec :
  (forall s : string,
     ascii_text s = true ->
     title_case (PStr s) = Ok (PStr (join " " (capitalize_word <$> split_ws s)))) /\
  (forall c r, is_lower c = true -> capitalize_word (String c r) = String (upper c) r) /\
  (forall c r, is_ascii c = true -> is_lower c = false ->
     capitalize_word (String c r) = String c r) /\
  title_case (PStr "my bank") = Ok (PStr "My Bank") /\
  title_case (PStr "My BANK") = Ok (PStr "My BANK").
Proof.
  split; [intros s _; apply title_case_text|].
  split; [by intros c r H; simpl; rewrite H|].
  split; [by intros c r _ H; simpl; rewrite H|]. by vm_compute.
Qed.

(** C6, as amended.  Without a usable issuer, logo or account type, a name
    of ASCII characters with a colon resolves to its part before the first colon, trimmed, when
    that part is not empty, and to the whole trimmed name when it is. *)
Theorem name_prefix_or_full_name (token : gmap string pyval) (name : string) :
  resolver_typed token = true ->
  text token "issuer" = "" ->
  usable_hint "authenticator_" (text token "logo") = "" ->
  usable_hint "authenticator" (text token "account_type") = "" ->
  token !! "name" = Some (PStr name) ->
  ascii_text name = true ->
  contains ":" name = true ->
  resolve_issuer token =
  Ok (PStr (if nonempty (strip (before_first ":" name))
            then strip (before_first ":" name) else strip name)).
Proof.
  intros H Hi Hl Ha Hn _ Hc. rewrite (resolve_issuer_chain token H).
  unfold issuer_chain. rewrite Hi, Hl, Ha.
  assert (Ht : text token "name" = name) by (unfold text; by rewrite Hn).
  rewrite Ht. unfold before_colon. rewrite Hc.
  change (first_nonempty ("" :: "" :: "" :: ?l)) with (first_nonempty l).
  change (first_nonempty [?a; ?b])
    with (if nonempty a then a else first_nonempty [b]).
  by rewrite first_nonempty_last.
Qed.

(** C7, as amended.  At the issuer prompt of interactive mode a line of
    ASCII characters that is empty, or white space only, accepts the proposed
    issuer as it is, and any other such line replaces the issuer with the
    typed text without the white space around it; the text is not title-cased
    again. *)
Theorem typed_issuer_is_trimmed :
  (forall (token : gmap string pyval) (issuer : pyval) (w : world) (line : string)
          (rest : list keyboard),
     stdin w = Line line :: rest -> ascii_text line = true ->
     stdin (confirm_issuer true token issuer w).1 = rest /\
     (strip line = "" -> (confirm_issuer true token issuer w).2 = Ok issuer) /\
     (strip line <> "" ->
      (confirm_issuer true token issuer w).2 = Ok (PStr (strip line)))) /\
  files (convert_tokens render_none (loads_document (one_token_document jsmith_token))
           "tokens.json" "out.txt" true padded_line_world).1 !! "out.txt" =
    Some "otpauth://totp/other%20bank%3Ajsmith?secret=SECRET123&issuer=other%20bank&digits=8&algorithm=SHA1".
Proof.
  split; [|by vm_compute].
  intros token issuer w line rest H _. rewrite (confirm_issuer_prompts _ _ _ _ _ H).
  simpl. unfold nonempty. split; [done|].
  split; intros Hl; by destruct (String.eqb_spec (strip line) "").
Qed.

(** C8. When the input file does not exist, or is not valid JSON, or parses
    to a document without tokens under [decrypted_authenticator_tokens], the
    driver logs one error, leaves every file as it was, and returns. *)
Theorem batch_driver_no_tokens (render : pyval -> string)
    (json_loads : string -> string + pyval) (input_file output_file : string)
    (interactive : bool) (w : world) :
  no_tokens_in json_loads w input_file ->
  exists m,
    convert_tokens render json_loads input_file output_file interactive w =
    (World (files w) (stdin w) (log w ++ [(ERROR, m)]) (faults w), Ok tt).
Proof. apply convert_without_tokens. Qed.

(** C9, as amended.  On a token whose fields are text, or absent, with
    issuer and name of ASCII characters, and whose digits are an integer that
    [str] converts, or absent, [generate_otpauth_uri] returns a URI and
    raises nothing; [algorithm=SHA1] is its last parameter; an absent issuer
    or secret leaves no parameter of that name, and absent digits give
    [digits=6]. *)
Theorem generate_otpauth_uri_total (render : pyval -> string)
    (token : gmap string pyval) :
  builder_typed token = true ->
  ascii_text (text token "issuer") = true ->
  ascii_text (text token "name") = true ->
  printable (digits_of token) = true ->
  exists uri,
    generate_otpauth_uri render token = Ok uri /\
    uri = "otpauth://totp/" +:+ Urllib.quote (label_of token) +:+ "?" +:+
          join "&" (query_params token) /\
    last (query_params token) = Some "algorithm=SHA1" /\
    (token !! "issuer" = None ->
     forall p, p ∈ query_params token -> startswith "issuer=" p = false) /\
    (token !! "decrypted_seed" = None ->
     forall p, p ∈ query_params token -> startswith "secret=" p = false) /\
    (token !! "digits" = None -> "digits=6" ∈ query_params token).
Proof.
  intros H _ _ _. exists (uri_of token). split; [by apply generate_typed|].
  split; [done|]. split; [apply query_params_last|]. split; [|split].
  - intros Hi p. apply no_issuer_param. by apply text_absent.
  - intros Hs p. apply no_secret_param. by apply text_absent.
  - apply default_digits_param.
Qed.

(** C10. At most one issuer prefix is removed: what follows the matched
    prefix is returned trimmed whatever it begins with, so a second
    occurrence of the issuer and a separator stays. *)
Theorem strip_issuer_removes_one_prefix :
  (forall (issuer p ws1 : string) (c : ascii) (ws2 rest : string),
     issuer <> "" -> ci_equal p issuer = true ->
     all_space ws1 = true -> all_space ws2 = true ->
     is_colon_or_hyphen c = true \/
       (is_space c = true /\ separator_follows rest = false) ->
     strip_issuer_from_name (PStr (p +:+ ws1 +:+ String c (ws2 +:+ rest))) (PStr issuer)
     = Ok (strip rest)) /\
  (forall issuer tail : string, issuer <> "" ->
     strip_issuer_from_name
       (PStr (issuer +:+ ": " +:+ issuer +:+ ": " +:+ tail)) (PStr issuer)
     = Ok (strip (issuer +:+ ": " +:+ tail))) /\
  strip_issuer_from_name (PStr "Acme: Acme: jsmith") (PStr "Acme") = Ok "Acme: jsmith".
Proof.
  split; [exact strip_issuer_at_separator|]. split; [|by vm_compute].
  intros issuer tail Hi.
  apply (strip_issuer_at_separator issuer issuer "" ":" " " (issuer +:+ ": " +:+ tail));
    try done.
  - apply ci_equal_refl.
  - by left.
Qed.

(** * Instances and counterexamples *)

Lemma issuer_fallback_chain_witness :
  resolver_typed hinted_token = true /\
  resolve_issuer hinted_token = Ok (PStr (issuer_chain hinted_token)) /\
  resolve_issuer hinted_token = Ok (PStr "github").
Proof.
  destruct issuer_fallback_chain as (Hchain & _ & Hlogo).
  split; [by vm_compute|]. split.
  - apply Hchain; by vm_compute.
  - apply (Hlogo hinted_token "github"); by vm_compute.
Defined.

Lemma strip_issuer_from_name_spec_witness :
  "Acme: Email" <> "" /\ "Acme" <> "" /\
  ascii_text "Acme: Email" = true /\ ascii_text "Acme" = true /\
  removes_issuer_prefix "Acme: Email" "Acme"
    (strip_issuer_from_name (PStr "Acme: Email") (PStr "Acme")).
Proof.
  split; [done|]. split; [done|]. split; [by vm_compute|]. split; [by vm_compute|].
  destruct strip_issuer_from_name_spec as [H _]. by apply H.
Defined.

Lemma uri_parameter_order_witness :
  generate_otpauth_uri render_none acme_token =
    Ok "otpauth://totp/Acme%3Ajsmith?secret=SECRET123&issuer=Acme&digits=6&algorithm=SHA1" /\
  exists label,
    "otpauth://totp/Acme%3Ajsmith?secret=SECRET123&issuer=Acme&digits=6&algorithm=SHA1" =
    "otpauth://totp/" +:+ label +:+ "?" +:+ join "&" (params_of render_none acme_token).
Proof.
  split; [by vm_compute|].
  destruct uri_parameter_order as [H _]. apply H. by vm_compute.
Defined.

Lemma digits_default_when_absent_witness :
  builder_typed colon_first_token = true /\
  colon_first_token !! "digits" = None /\
  "digits=6" ∈ query_params colon_first_token.
Proof.
  split; [by vm_compute|]. split; [by vm_compute|].
  destruct (digits_default_when_absent render_none colon_first_token) as (_ & H & _);
    [by vm_compute|].
  apply H. by vm_compute.
Defined.

(** C4 as it was stated fails on a token whose digits are zero: the field is
    falsy, and the URI has no [digits=6] in it. *)
Lemma digits_zero_omitted :
  builder_typed zero_digits_token = true /\
  zero_digits_token !! "digits" = Some (PInt 0) /\
  truthy (PInt 0) = false /\
  generate_otpauth_uri render_none zero_digits_token =
    Ok "otpauth://totp/jsmith?secret=SECRET123&algorithm=SHA1" /\
  contains "digits=6" "otpauth://totp/jsmith?secret=SECRET123&algorithm=SHA1" = false.
Proof. by vm_compute. Qed.

Lemma title_case_spec_witness :
  ascii_text "my  bank" = true /\ is_lower "m" = true /\
  title_case (PStr "my  bank") = Ok (PStr "My Bank") /\ capitalize_word "my" = "My".
Proof.
  destruct title_case_spec as (Ht & Hc & _).
  split; [by vm_compute|]. split; [done|]. split.
  - by rewrite (Ht "my  bank") by (by vm_compute).
  - by apply (Hc "m"%char "y").
Defined.

Lemma name_prefix_or_full_name_witness :
  resolver_typed colon_first_token = true /\
  ascii_text ":jsmith" = true /\ contains ":" ":jsmith" = true /\
  resolve_issuer colon_first_token = Ok (PStr ":jsmith").
Proof.
  split; [by vm_compute|]. split; [by vm_compute|]. split; [by vm_compute|].
  apply (name_prefix_or_full_name colon_first_token ":jsmith"); by vm_compute.
Defined.

(** C6 as it was stated fails on the name [:jsmith]: nothing stands before
    the colon, and the resolver answers with the whole name. *)
Lemma colon_first_counterexample :
  resolver_typed colon_first_token = true /\
  text colon_first_token "issuer" = "" /\
  usable_hint "authenticator_" (text colon_first_token "logo") = "" /\
  usable_hint "authenticator" (text colon_first_token "account_type") = "" /\
  colon_first_token !! "name" = Some (PStr ":jsmith") /\
  contains ":" ":jsmith" = true /\
  strip (before_first ":" ":jsmith") = "" /\
  resolve_issuer colon_first_token = Ok (PStr ":jsmith") /\
  resolve_issuer colon_first_token <> Ok (PStr (strip (before_first ":" ":jsmith"))).
Proof. by vm_compute. Qed.

Lemma batch_driver_no_tokens_witness :
  no_tokens_in loads_one (World {["tokens.json" := "{}"]} [] [] ∅) "tokens.json" /\
  exists m,
    convert_tokens render_none loads_one "tokens.json" "out.txt" false
      (World {["tokens.json" := "{}"]} [] [] ∅) =
    (World {["tokens.json" := "{}"]} [] [(ERROR, m)] ∅, Ok tt).
Proof.
  assert (H : no_tokens_in loads_one (World {["tokens.json" := "{}"]} [] [] ∅) "tokens.json").
  { by apply (InputEmpty _ _ _ "{}" (PDict ∅)). }
  split; [exact H|].
  exact (batch_driver_no_tokens render_none loads_one "tokens.json" "out.txt" false _ H).
Defined.

Lemma generate_otpauth_uri_total_witness :
  builder_typed acme_token = true /\
  ascii_text (text acme_token "issuer") = true /\
  ascii_text (text acme_token "name") = true /\
  printable (digits_of acme_token) = true /\
  exists uri, generate_otpauth_uri render_none acme_token = Ok uri.
Proof.
  split; [by vm_compute|]. split; [by vm_compute|]. split; [by vm_compute|].
  split; [by vm_compute|].
  destruct (generate_otpauth_uri_total render_none acme_token) as (uri & H & _);
    [by vm_compute..|].
  by exists uri.
Defined.

Lemma strip_issuer_removes_one_prefix_witness :
  "Acme" <> "" /\
  strip_issuer_from_name (PStr ("Acme" +:+ ": " +:+ "Acme" +:+ ": " +:+ "jsmith")) (PStr "Acme")
  = Ok (strip ("Acme" +:+ ": " +:+ "jsmith")).
Proof.
  split; [done|]. destruct strip_issuer_removes_one_prefix as (_ & H & _). by apply H.
Defined.

Lemma typed_issuer_is_trimmed_witness :
  stdin padded_line_world = [Line " other bank "] /\
  ascii_text " other bank " = true /\
  strip " other bank " <> "" /\
  (confirm_issuer true jsmith_token (PStr "Jsmith") padded_line_world).2
  = Ok (PStr "other bank").
Proof.
  split; [done|]. split; [by vm_compute|]. split; [by vm_compute|].
  destruct typed_issuer_is_trimmed as [H _].
  destruct (H jsmith_token (PStr "Jsmith") padded_line_world " other bank " [])
    as (_ & _ & Hr); [done|by vm_compute|].
  apply Hr. by vm_compute.
Defined.

(** C7 as it was stated fails on a typed line with white space around it:
    the token has no explicit issuer, the line is not empty, and the issuer
    becomes the trimmed text, not the line as typed. *)
Lemma padded_line_counterexample :
  jsmith_token !! "issuer" = None /\
  resolve_issuer jsmith_token ≫= title_case = Ok (PStr "Jsmith") /\
  " other bank " <> "" /\
  (confirm_issuer true jsmith_token (PStr "Jsmith") padded_line_world).2
  = Ok (PStr "other bank") /\
  (confirm_issuer true jsmith_token (PStr "Jsmith") padded_line_world).2
  <> Ok (PStr " other bank ").
Proof. by vm_compute. Qed.

(** The prompt itself is not reserved to tokens without an issuer: a token
    that came with the issuer [Acme] is announced as having none, the
    operator is prompted, and the typed line replaces the explicit issuer. *)
Lemma interactive_prompts_explicit_issuer :
  let run :=
    convert_tokens render_none
      (loads_document (one_token_document explicit_issuer_token))
      "tokens.json" "out.txt" true interactive_world in
  explicit_issuer_token !! "issuer" = Some (PStr "Acme") /\
  run.2 = Ok tt /\
  stdin run.1 = [] /\
  log run.1 =
    [(INFO, MBlank); (WARN, MNoIssuer (PStr "jsmith")); (INFO, MProposed (PStr "Acme"));
     (INFO, MProcessed (PStr "Other") "jsmith");
     (INFO, MBlank); (INFO, MConverted 1); (INFO, MWritten "out.txt")] /\
  files run.1 !! "out.txt" =
    Some "otpauth://totp/Other%3Ajsmith?secret=SECRET123&issuer=Other&digits=6&algorithm=SHA1".
Proof. by vm_compute. Qed.

(** C9 as it was stated fails on a token without digits: the field is
    absent, and the URI carries a digits parameter all the same. *)
Lemma absent_digits_emitted :
  builder_typed no_digits_token = true /\
  no_digits_token !! "digits" = None /\
  generate_otpauth_uri render_none no_digits_token =
    Ok "otpauth://totp/jsmith?secret=SECRET123&digits=6&algorithm=SHA1" /\
  query_params no_digits_token = ["secret=SECRET123"; "digits=6"; "algorithm=SHA1"] /\
  startswith "digits=" "digits=6" = true.
Proof. by vm_compute. Qed.

(** * Further properties *)

(** ** Trimming *)

Lemma rstrip_head (c : ascii) (r : string) :
  is_space c = false -> exists t, rstrip (String c r) = String c t.
Proof. intros H. simpl. rewrite H. destruct (rstrip r); eauto. Qed.

Lemma rstrip_cons (c : ascii) (r : string) :
  rstrip (String c r) =
  match rstrip r with
  | EmptyString => if is_space c then EmptyString else String c EmptyString
  | r' => String c r'
  end.
Proof. reflexivity. Qed.

Lemma rstrip_idempotent (s : string) : rstrip (rstrip s) = rstrip s.
Proof.
  induction s as [|c r IH]; [done|]. rewrite rstrip_cons.
  destruct (rstrip r) as [|d t] eqn:E.
  - destruct (is_space c) eqn:Hc; [done|]. rewrite rstrip_cons. simpl. by rewrite Hc.
  - rewrite rstrip_cons. by rewrite IH.
Qed.

Lemma strip_idempotent (s : string) : strip (strip s) = strip s.
Proof.
  unfold strip. induction s as [|c r IH]; [done|]. simpl lstrip at 2 3.
  destruct (is_space c) eqn:Hc; [done|].
  destruct (rstrip_head c r Hc) as [t Ht]. rewrite Ht at 1. simpl lstrip.
  rewrite Hc, <- Ht. apply rstrip_idempotent.
Qed.

Lemma lstrip_suffix (s : string) : exists a, s = a +:+ lstrip s.
Proof.
  induction s as [|c r [a Ha]]; [by exists ""|]. simpl.
  destruct (is_space c); [|by exists ""].
  exists (String c a). by rewrite append_cons, <- Ha.
Qed.

Lemma rstrip_prefix (s : string) : exists b, s = rstrip s +:+ b.
Proof.
  induction s as [|c r [b Hb]]; [by exists ""|]. simpl.
  destruct (rstrip r) as [|d t] eqn:E.
  - destruct (is_space c).
    + by exists (String c r).
    + exists r. by rewrite append_cons.
  - exists b. rewrite append_cons. by rewrite <- Hb.
Qed.

Lemma strip_infix (s : string) : exists a b, s = a +:+ strip s +:+ b.
Proof.
  destruct (lstrip_suffix s) as [a Ha]. destruct (rstrip_prefix (lstrip s)) as [b Hb].
  exists a, b. unfold strip. by rewrite <- Hb.
Qed.

Lemma drop_chars_suffix (n : nat) (s : string) : exists a, s = a +:+ drop_chars n s.
Proof.
  revert s. induction n as [|n IH]; intros s; [by exists ""|].
  destruct s as [|c r]; [by exists ""|]. destruct (IH r) as [a Ha].
  exists (String c a). simpl. by rewrite append_cons, <- Ha.
Qed.

Lemma cleaned_suffix (issuer name : string) : exists a, name = a +:+ cleaned issuer name.
Proof.
  unfold cleaned. destruct (ci_strip issuer name) as [r|] eqn:Hr; [|by exists ""].
  destruct (sep_len r) as [n|]; [|by exists ""].
  destruct (ci_strip_split _ _ _ Hr) as (p & -> & _).
  destruct (drop_chars_suffix n r) as [a Ha].
  exists (p +:+ a). by rewrite append_assoc, <- Ha.
Qed.

Lemma clean_name_infix (issuer name : string) :
  exists a b, name = a +:+ clean_name issuer name +:+ b.
Proof.
  unfold clean_name. destruct (nonempty name && nonempty issuer); [|apply strip_infix].
  destruct (cleaned_suffix issuer name) as [a Ha].
  destruct (strip_infix (cleaned issuer name)) as (a' & b & Hs).
  exists (a +:+ a'), b. by rewrite append_assoc, <- Hs.
Qed.

(** What the name cleaner returns for a text name, whatever the issuer is. *)
Lemma strip_issuer_from_name_text (name : string) (issuer : pyval) (r : string) :
  strip_issuer_from_name (PStr name) issuer = Ok r ->
  r = strip name \/ exists i, issuer = PStr i /\ r = clean_name i name.
Proof.
  destruct issuer as [|b|z|i|l|d].
  4: { rewrite strip_issuer_clean. intros [= <-]. eauto. }
  all: unfold strip_issuer_from_name; simpl;
    destruct (String.eqb_spec name "") as [->|]; simpl.
  all: repeat match goal with
         | |- context [negb ?b] => destruct b; simpl
         end.
  all: try (intros [= <-]; by left). all: try done.
Qed.

(** [strip_issuer_from_name] returns trimmed text: trimming its result again
    changes nothing, whatever the two arguments are. *)
Theorem cleaned_name_is_trimmed (name issuer : pyval) (r : string) :
  strip_issuer_from_name name issuer = Ok r -> strip r = r.
Proof.
  destruct name as [|b|z|n|l|d].
  4: { intros [->|(i & -> & ->)]%strip_issuer_from_name_text.
       - apply strip_idempotent.
       - unfold clean_name. destruct (_ && _); apply strip_idempotent. }
  all: unfold strip_issuer_from_name; simpl.
  all: repeat match goal with
         | |- context [truthy ?v] => destruct (truthy v) eqn:?; simpl
         | |- context [negb ?b] => destruct b; simpl
         | |- context [match ?l with [] => _ | _ => _ end] => destruct l; simpl
         end.
  all: try (intros [= <-]; reflexivity). all: try done.
  all: destruct issuer as [| | |i| |]; simpl; try done.
  all: unfold re_compile; rewrite compile_issuer_pattern; simpl; done.
Qed.

(** The cleaned name is a piece of the name: the cleaner removes text at
    both ends and adds none. *)
Theorem cleaned_name_is_part_of_name (name : string) (issuer : pyval) (r : string) :
  strip_issuer_from_name (PStr name) issuer = Ok r ->
  exists a b, name = a +:+ r +:+ b.
Proof.
  intros [->|(i & -> & ->)]%strip_issuer_from_name_text.
  - apply strip_infix.
  - apply clean_name_infix.
Qed.

(** An issuer at the head of the name is removed only before a separator:
    a name of ASCII characters that is the issuer alone, or continues with
    another character, is returned whole (trimmed). *)
Theorem issuer_needs_separator (p issuer rest : string) :
  issuer <> "" -> ascii_text issuer = true -> ascii_text (p +:+ rest) = true ->
  ci_equal p issuer = true ->
  rest = "" \/ (exists c r, rest = String c r /\ is_separator c = false) ->
  strip_issuer_from_name (PStr (p +:+ rest)) (PStr issuer) = Ok (strip (p +:+ rest)).
Proof.
  intros Hi _ _ Hp Hrest. rewrite strip_issuer_clean. unfold clean_name, cleaned.
  rewrite (ci_strip_append _ _ _ Hp).
  assert (Hs : sep_len rest = None).
  { destruct Hrest as [->|(c & r & -> & Hc)]; [done|]. simpl.
    unfold is_separator in Hc. apply orb_false_iff in Hc as [Hc Hsp].
    rewrite Hsp. unfold is_colon_or_hyphen. by rewrite Hc. }
  rewrite Hs. by destruct (_ && _).
Qed.

(** The pattern of lines 33-36 compiles for every issuer, to the anchored
    sequence of the issuer's characters as literals and the separator part;
    the cleaner raises no [re.error], whatever its arguments. *)
Theorem issuer_pattern_always_compiles :
  (forall issuer : string,
     re_compile ("^" +:+ Re.escape issuer +:+ "\s*[:\-\s]\s*")
     = Ok (issuer_pattern issuer)) /\
  (forall name issuer : pyval, strip_issuer_from_name name issuer <> Raise ReError).
Proof.
  split.
  - intros issuer. unfold re_compile. by rewrite compile_issuer_pattern.
  - intros name issuer. unfold strip_issuer_from_name.
    destruct (negb (truthy name) || negb (truthy issuer)).
    + destruct (truthy name); [|done]. by destruct name.
    + destruct issuer as [| | |i| |]; try done. simpl.
      unfold re_compile. rewrite compile_issuer_pattern. simpl. by destruct name.
Qed.

(** ** Percent-encoding *)

Lemma all_chars_append (P : ascii -> bool) (a b : string) :
  all_chars P (a +:+ b) = all_chars P a && all_chars P b.
Proof.
  induction a as [|c a IH]; [done|]. rewrite append_cons. simpl.
  by rewrite IH, andb_assoc.
Qed.

Lemma quote_char_encoded (c : ascii) :
  all_chars encoded_char (Urllib.quote_char c) = true.
Proof. by destruct c as [[] [] [] [] [] [] [] []]. Qed.

Lemma quote_encoded (s : string) : all_chars encoded_char (Urllib.quote s) = true.
Proof.
  induction s as [|c s IH]; [done|].
  change (Urllib.quote (String c s)) with (Urllib.quote_char c +:+ Urllib.quote s).
  by rewrite all_chars_append, quote_char_encoded, IH.
Qed.

(** Whenever [generate_otpauth_uri] returns, the label of the URI is made of
    letters, digits, [_.-~] and percent escapes only: no colon, slash,
    question mark or ampersand of the issuer or the name reaches the URI
    unescaped. *)
Theorem uri_label_is_encoded (render : pyval -> string) (token : gmap string pyval)
    (uri : string) :
  generate_otpauth_uri render token = Ok uri ->
  exists label,
    uri = "otpauth://totp/" +:+ label +:+ "?" +:+ join "&" (params_of render token) /\
    all_chars encoded_char label = true.
Proof.
  unfold generate_otpauth_uri, params_of. cbv zeta.
  destruct (strip_issuer_from_name _ _) as [account|]; [|done].
  cbn [mbind result_bind].
  destruct (if String.eqb account "" then _ else _) as [account'|]; [|done].
  cbn [mbind result_bind].
  pose proof (quote_encoded
    (if truthy (dict_get token "issuer" (PStr ""))
     then py_str render (dict_get token "issuer" (PStr "")) +:+ ":" +:+ account'
     else account')) as Hq.
  set (label := Urllib.quote _) in *. clearbody label.
  destruct (truthy (dict_get token "issuer" (PStr ""))).
  - destruct (dict_get token "issuer" (PStr "")) as [| | |s| |]; try done.
    cbn [mbind result_bind py_quote].
    destruct (truthy (dict_get token "decrypted_seed" _)), (truthy (dict_get token "digits" _));
      intros [= <-]; by exists label.
  - cbn [mbind result_bind].
    destruct (truthy (dict_get token "decrypted_seed" _)), (truthy (dict_get token "digits" _));
      intros [= <-]; by exists label.
Qed.

(** ** Words and title-casing *)

Lemma split_ws_go_word (w : string) :
  all_chars no_space w = true -> split_ws_go w = (w, []).
Proof.
  induction w as [|c w IH]; [done|]. simpl. unfold no_space at 1.
  intros [Hc Hw]%andb_true_iff. rewrite (IH Hw).
  by destruct (is_space c).
Qed.

Lemma split_ws_go_space (w rest : string) :
  all_chars no_space w = true ->
  split_ws_go (w +:+ String " " rest) = (w, split_ws rest).
Proof.
  induction w as [|c w IH].
  - intros _. rewrite append_nil_l. unfold split_ws. simpl.
    by destruct (split_ws_go rest).
  - intros H. simpl in H. apply andb_true_iff in H as [Hc Hw].
    unfold no_space in Hc. rewrite append_cons. simpl. rewrite (IH Hw).
    by destruct (is_space c).
Qed.

Lemma split_ws_word (w : string) : is_word w = true -> split_ws w = [w].
Proof.
  unfold is_word, nonempty. intros [Hn Hw]%andb_true_iff.
  unfold split_ws. rewrite (split_ws_go_word w Hw). by destruct w.
Qed.

Lemma join_cons (sep w w' : string) (ws : list string) :
  join sep (w :: w' :: ws) = w +:+ sep +:+ join sep (w' :: ws).
Proof. reflexivity. Qed.

Lemma split_ws_join (ws : list string) :
  Forall (fun w => is_word w = true) ws -> split_ws (join " " ws) = ws.
Proof.
  induction 1 as [|w ws Hw Hws IH]; [done|].
  destruct ws as [|w' ws]; [by apply split_ws_word|].
  rewrite join_cons. unfold is_word, nonempty in Hw.
  apply andb_true_iff in Hw as [Hn Hc].
  change (w +:+ " " +:+ join " " (w' :: ws))
    with (w +:+ String " " (join " " (w' :: ws))).
  unfold split_ws at 1. rewrite (split_ws_go_space _ _ Hc), IH. by destruct w.
Qed.

Lemma push_word_words (w : string) (ws : list string) :
  all_chars no_space w = true -> Forall (fun v => is_word v = true) ws ->
  Forall (fun v => is_word v = true) (push_word w ws).
Proof.
  intros Hw Hws. destruct w as [|c w]; [done|]. constructor; [|done].
  unfold is_word. by rewrite Hw.
Qed.

Lemma split_ws_go_words (s : string) :
  all_chars no_space (split_ws_go s).1 = true /\
  Forall (fun v => is_word v = true) (split_ws_go s).2.
Proof.
  induction s as [|c r [IH1 IH2]]; [by split; [|constructor]|]. simpl.
  destruct (split_ws_go r) as [w ws]. simpl in *.
  destruct (is_space c) eqn:Hc; simpl.
  - split; [done|]. by apply push_word_words.
  - unfold no_space at 1. by rewrite Hc.
Qed.

Lemma split_ws_words (s : string) : Forall (fun v => is_word v = true) (split_ws s).
Proof.
  unfold split_ws. destruct (split_ws_go_words s) as [H1 H2].
  destruct (split_ws_go s) as [w ws]. by apply push_word_words.
Qed.

Lemma upper_of_lower (c : ascii) :
  is_lower c = true ->
  is_lower (upper c) = false /\ is_space (upper c) = false /\ lower (upper c) = lower c.
Proof. destruct c as [[] [] [] [] [] [] [] []]; intros H; try discriminate H; done. Qed.

Lemma capitalize_word_idempotent (w : string) :
  capitalize_word (capitalize_word w) = capitalize_word w.
Proof.
  destruct w as [|c r]; [done|]. simpl. destruct (is_lower c) eqn:Hc; simpl.
  - destruct (upper_of_lower c Hc) as (Hl & _). by rewrite Hl.
  - by rewrite Hc.
Qed.

Lemma capitalize_word_starts (w : string) : starts_lower (capitalize_word w) = false.
Proof.
  destruct w as [|c r]; [done|]. simpl. destruct (is_lower c) eqn:Hc; simpl; [|done].
  by destruct (upper_of_lower c Hc).
Qed.

Lemma capitalize_word_word (w : string) :
  is_word w = true -> is_word (capitalize_word w) = true.
Proof.
  destruct w as [|c r]; [done|]. unfold is_word. simpl.
  destruct (is_lower c) eqn:Hc; [|done]. simpl. unfold no_space at 1 3.
  destruct (upper_of_lower c Hc) as (_ & Hs & _). rewrite Hs.
  by destruct (is_space c).
Qed.

Lemma capitalized_words (s : string) :
  Forall (fun v => is_word v = true) (capitalize_word <$> split_ws s).
Proof.
  apply Forall_fmap. eapply Forall_impl; [apply split_ws_words|].
  intros w Hw. by apply capitalize_word_word.
Qed.

Lemma title_case_words_split (s : string) :
  split_ws (title_case_words s) = capitalize_word <$> split_ws s.
Proof. unfold title_case_words. apply split_ws_join, capitalized_words. Qed.

(** Title-casing twice is title-casing once. *)
Theorem title_case_idempotent (s : string) :
  title_case (PStr s) ≫= title_case = title_case (PStr s).
Proof.
  rewrite title_case_text. cbn [mbind result_bind]. rewrite title_case_text.
  do 2 f_equal. unfold title_case_words at 1. rewrite title_case_words_split.
  unfold title_case_words. f_equal. rewrite <- list_fmap_compose.
  apply list_fmap_ext. intros _ w _. apply capitalize_word_idempotent.
Qed.

(** The title-cased issuer has the words of the issuer, each capitalized:
    as many words, none of them starting with a lowercase letter.  The issuer
    is ASCII text. *)
Theorem title_case_keeps_the_words (s : string) :
  ascii_text s = true ->
  exists r,
    title_case (PStr s) = Ok (PStr r) /\
    split_ws r = capitalize_word <$> split_ws s /\
    length (split_ws r) = length (split_ws s) /\
    Forall (fun w => starts_lower w = false) (split_ws r).
Proof.
  intros _. exists (title_case_words s). rewrite title_case_text, title_case_words_split.
  split; [done|]. split; [done|]. split; [apply length_fmap|].
  apply Forall_fmap, Forall_forall. intros w _. apply capitalize_word_starts.
Qed.

(** ** The resolver *)

Lemma first_nonempty_empty (l : list string) :
  first_nonempty l = "" <-> Forall (fun s => s = "") l.
Proof.
  induction l as [|s l IH]; simpl; [by split; [constructor|]|].
  unfold nonempty. destruct (String.eqb_spec s "") as [->|Hs]; simpl.
  - rewrite IH. split; [by constructor|by inversion 1].
  - split; [done|]. by inversion 1.
Qed.

Lemma rstrip_empty (s : string) : rstrip s = "" <-> all_space s = true.
Proof.
  induction s as [|c r IH]; [done|]. rewrite rstrip_cons. simpl.
  destruct (rstrip r) as [|d t].
  - destruct (is_space c); simpl; [|by split].
    destruct IH as [IH _]. by rewrite IH.
  - split; [done|]. intros [_ H]%andb_true_iff. by apply IH in H.
Qed.

Lemma all_space_lstrip (s : string) : all_space (lstrip s) = all_space s.
Proof.
  induction s as [|c r IH]; [done|]. simpl. destruct (is_space c) eqn:Hc; [done|].
  simpl. by rewrite Hc.
Qed.

Lemma strip_empty (s : string) : strip s = "" <-> all_space s = true.
Proof. unfold strip. by rewrite rstrip_empty, all_space_lstrip. Qed.

Lemma before_first_all_space (c : ascii) (s : string) :
  all_space s = true -> all_space (before_first c s) = true.
Proof.
  induction s as [|d r IH]; [done|]. simpl. intros [Hd Hr]%andb_true_iff.
  destruct (Ascii.eqb d c); [done|]. simpl. by rewrite Hd, IH.
Qed.

Lemma before_colon_blank (name : string) : strip name = "" -> before_colon name = "".
Proof.
  intros H%strip_empty. unfold before_colon. destruct (contains ":" name); [|done].
  by apply strip_empty, before_first_all_space.
Qed.

(** The chain comes out empty exactly when there is no issuer, no usable
    hint, and the name is blank: a token with a name of ASCII characters that
    is not blank always gets an issuer. *)
Theorem issuer_empty_only_for_blank_name (token : gmap string pyval) :
  resolver_typed token = true ->
  ascii_text (text token "name") = true ->
  resolve_issuer token = Ok (PStr "") <->
  text token "issuer" = "" /\
  usable_hint "authenticator_" (text token "logo") = "" /\
  usable_hint "authenticator" (text token "account_type") = "" /\
  strip (text token "name") = "".
Proof.
  intros H _. rewrite (resolve_issuer_chain token H). unfold issuer_chain.
  set (candidates := [_; _; _; _; _]). split.
  - intros Hr. assert (Hc : first_nonempty candidates = "") by congruence.
    apply first_nonempty_empty in Hc. subst candidates.
    inversion Hc as [|? ? H1 Hc1]; subst. inversion Hc1 as [|? ? H2 Hc2]; subst.
    inversion Hc2 as [|? ? H3 Hc3]; subst. inversion Hc3 as [|? ? H4 Hc4]; subst.
    by inversion Hc4.
  - intros (H1 & H2 & H3 & H4). do 2 f_equal. apply first_nonempty_empty.
    subst candidates. rewrite H1, H2, H3, (before_colon_blank _ H4), H4.
    by repeat constructor.
Qed.

Lemma contains_colon (a b : string) : contains ":" (a +:+ String ":" b) = true.
Proof.
  induction a as [|c a IH].
  - rewrite append_nil_l.
    change (contains ":" (String ":" b)) with (String.prefix ":" (String ":" b) || contains ":" b).
    by destruct b.
  - rewrite append_cons.
    change (contains ":" (String c ?t)) with (String.prefix ":" (String c t) || contains ":" t).
    rewrite IH. apply orb_true_r.
Qed.

Lemma before_first_colon (w rest : string) :
  all_chars not_colon w = true -> before_first ":" (w +:+ String ":" rest) = w.
Proof.
  induction w as [|c w IH]; [done|]. intros H. simpl in H.
  apply andb_true_iff in H as [Hc Hw]. unfold not_colon in Hc.
  rewrite append_cons. simpl. apply negb_true_iff in Hc. by rewrite Hc, (IH Hw).
Qed.

Lemma rstrip_no_space (w : string) : all_chars no_space w = true -> rstrip w = w.
Proof.
  induction w as [|c w IH]; [done|]. intros H. simpl in H.
  apply andb_true_iff in H as [Hc Hw]. unfold no_space in Hc.
  rewrite rstrip_cons, (IH Hw). apply negb_true_iff in Hc. rewrite Hc. by destruct w.
Qed.

Lemma strip_word (w : string) : is_word w = true -> strip w = w.
Proof.
  unfold is_word. intros [_ Hw]%andb_true_iff. unfold strip.
  assert (Hl : lstrip w = w).
  { destruct w as [|c w]; [done|]. simpl in *. apply andb_true_iff in Hw as [Hc _].
    unfold no_space in Hc. apply negb_true_iff in Hc. by rewrite Hc. }
  rewrite Hl. by apply rstrip_no_space.
Qed.

Lemma title_case_words_word (w : string) :
  is_word w = true -> title_case_words w = capitalize_word w.
Proof. intros H. unfold title_case_words. by rewrite (split_ws_word w H). Qed.

Lemma ci_equal_capitalized (w : string) : ci_equal w (capitalize_word w) = true.
Proof.
  destruct w as [|c r]; [done|]. simpl. destruct (is_lower c) eqn:Hc; simpl.
  - destruct (upper_of_lower c Hc) as (_ & _ & Hl). unfold ci_char.
    by rewrite Hl, Ascii.eqb_refl, ci_equal_refl.
  - unfold ci_char. by rewrite Ascii.eqb_refl, ci_equal_refl.
Qed.

(** Resolver, title-casing and name cleaner fit together: when the issuer
    is taken from a one-word head of a name of ASCII characters before its
    first colon, the title-cased issuer is that word capitalized, and the
    cleaner, given the name and that issuer, removes the word and the colon
    and returns what follows, trimmed. *)
Theorem inferred_issuer_is_stripped (token : gmap string pyval) (w rest : string) :
  resolver_typed token = true ->
  ascii_text w = true -> ascii_text rest = true ->
  text token "issuer" = "" ->
  usable_hint "authenticator_" (text token "logo") = "" ->
  usable_hint "authenticator" (text token "account_type") = "" ->
  token !! "name" = Some (PStr (w +:+ String ":" rest)) ->
  is_word w = true -> all_chars not_colon w = true ->
  resolve_issuer token ≫= title_case = Ok (PStr (capitalize_word w)) /\
  strip_issuer_from_name (PStr (w +:+ String ":" rest)) (PStr (capitalize_word w))
  = Ok (strip rest).
Proof.
  intros H _ _ Hi Hl Ha Hn Hw Hc. split.
  - rewrite (resolve_issuer_chain token H). cbn [mbind result_bind].
    rewrite title_case_text. do 2 f_equal. unfold issuer_chain.
    assert (Ht : text token "name" = w +:+ String ":" rest) by (unfold text; by rewrite Hn).
    rewrite Hi, Hl, Ha, Ht. unfold before_colon.
    rewrite contains_colon, (before_first_colon _ _ Hc), (strip_word _ Hw).
    change (first_nonempty ("" :: "" :: "" :: ?l)) with (first_nonempty l).
    simpl first_nonempty. unfold is_word in Hw. apply andb_true_iff in Hw as [Hne Hsp].
    rewrite Hne. apply title_case_words_word. unfold is_word. by rewrite Hne, Hsp.
  - apply (strip_issuer_at_separator (capitalize_word w) w "" ":" "" rest); try done.
    + destruct w as [|c r]; [done|]. simpl. by destruct (is_lower c).
    + apply ci_equal_capitalized.
    + by left.
Qed.

(** ** Ill-typed fields *)

(** A name that is present but falsy and not text ([null], [0], [false],
    an empty list or object) makes the builder raise [AttributeError]:
    the fallback of line 67 calls [strip] on it. *)
Theorem falsy_name_raises (render : pyval -> string) (token : gmap string pyval)
    (v : pyval) :
  token !! "name" = Some v -> truthy v = false -> (forall s, v <> PStr s) ->
  generate_otpauth_uri render token = Raise AttributeError.
Proof.
  intros Hn Hv Hs. unfold generate_otpauth_uri. cbv zeta.
  assert (Hname : dict_get token "name" (PStr "") = v) by (unfold dict_get; by rewrite Hn).
  rewrite Hname. unfold strip_issuer_from_name. rewrite Hv. simpl.
  destruct v; try done. by destruct (Hs s).
Qed.

(** An issuer that is truthy and not text (a number, [true], a list) makes
    the builder raise [TypeError], whether the name is empty or not. *)
Theorem non_text_issuer_raises (render : pyval -> string) (token : gmap string pyval)
    (v : pyval) :
  token !! "issuer" = Some v -> truthy v = true -> (forall s, v <> PStr s) ->
  is_text token "name" = true ->
  generate_otpauth_uri render token = Raise TypeError.
Proof.
  intros Hi Hv Hs Hn. unfold generate_otpauth_uri. cbv zeta.
  assert (Hissuer : dict_get token "issuer" (PStr "") = v) by (unfold dict_get; by rewrite Hi).
  rewrite Hissuer, (dict_get_text _ _ Hn). unfold strip_issuer_from_name.
  rewrite Hv. simpl truthy. destruct (String.eqb_spec (text token "name") "") as [->|Hne]; simpl.
  - destruct v; try done; try by destruct (Hs s).
    all: by destruct (truthy (dict_get token "decrypted_seed" (PStr ""))).
  - destruct v; try done. by destruct (Hs s).
Qed.

(** ** Exceptions of the pure functions *)

Lemma benign_ok {A} (a : A) : benign (Ok a).
Proof. by intros e. Qed.

Lemma benign_raise {A} (e : exn) : is_Exception e = true -> benign (@Raise A e).
Proof. by intros H e' [= <-]. Qed.

Lemma benign_bind {A B} (m : result A) (k : A -> result B) :
  benign m -> (forall a, benign (k a)) -> benign (m ≫= k).
Proof.
  intros Hm Hk. destruct m as [a|e]; [apply Hk|].
  intros e' [= <-]. by apply Hm.
Qed.

Lemma benign_fmap {A B} (f : A -> B) (m : result A) : benign m -> benign (f <$> m).
Proof. intros Hm. destruct m as [a|e]; [done|]. intros e' [= <-]. by apply Hm. Qed.

Lemma benign_str_strip (v : pyval) : benign (str_strip v).
Proof. by destruct v; intros e [= <-]. Qed.

Lemma benign_str_startswith (v : pyval) (p : string) : benign (str_startswith v p).
Proof. by destruct v; intros e [= <-]. Qed.

Lemma benign_str_split_ws (v : pyval) : benign (str_split_ws v).
Proof. by destruct v; intros e [= <-]. Qed.

Lemma benign_str_split_on (c : ascii) (v : pyval) : benign (str_split_on c v).
Proof. by destruct v; intros e [= <-]. Qed.

Lemma benign_py_in (n : string) (v : pyval) : benign (py_in n v).
Proof. by destruct v; intros e [= <-]. Qed.

Lemma benign_first {A} (l : list A) : benign (first l).
Proof. by destruct l; intros e [= <-]. Qed.

Lemma benign_re_escape (v : pyval) : benign (re_escape v).
Proof. by destruct v; intros e [= <-]. Qed.

Lemma benign_re_compile (p : string) : benign (re_compile p).
Proof. unfold re_compile. by destruct (Re.compile p); intros e [= <-]. Qed.

Lemma benign_pattern_sub (p : list Re.node) (v : pyval) : benign (pattern_sub p v).
Proof. by destruct v; intros e [= <-]. Qed.

Lemma benign_py_quote (v : pyval) : benign (py_quote v).
Proof. by destruct v; intros e [= <-]. Qed.

Lemma benign_py_get (v : pyval) (k : string) (d : pyval) : benign (py_get v k d).
Proof. by destruct v; intros e [= <-]. Qed.

Lemma benign_py_iter (v : pyval) : benign (py_iter v).
Proof. by destruct v; intros e [= <-]. Qed.

Lemma benign_capitalize_at (words : list string) (i : nat) : benign (capitalize_at words i).
Proof.
  unfold capitalize_at. destruct (words !! i) as [[|c r]|]; try by intros e [= <-].
  by destruct (is_lower c).
Qed.

Lemma benign_for_range (range : list nat) (words : list string) :
  benign (for_range range words).
Proof.
  revert words. induction range as [|i range IH]; intros words; [apply benign_ok|].
  simpl. apply benign_bind; [apply benign_capitalize_at|done].
Qed.

Create HintDb benign.
#[local] Hint Resolve benign_ok benign_str_strip benign_str_startswith
  benign_str_split_ws benign_str_split_on benign_py_in benign_first
  benign_re_escape benign_re_compile benign_pattern_sub benign_py_quote
  benign_py_get benign_py_iter benign_for_range : benign.

Ltac benign_steps :=
  repeat first
    [ apply benign_ok
    | apply benign_bind; [|intros ?]
    | apply benign_fmap
    | solve [auto with benign]
    | match goal with
      | |- benign (if ?b then _ else _) => destruct b
      end ].

Lemma benign_strip_issuer_from_name (name issuer : pyval) :
  benign (strip_issuer_from_name name issuer).
Proof. unfold strip_issuer_from_name. benign_steps. Qed.

Lemma benign_resolve_issuer (token : gmap string pyval) : benign (resolve_issuer token).
Proof. unfold resolve_issuer. cbv zeta. benign_steps. Qed.

Lemma benign_title_case (issuer : pyval) : benign (title_case issuer).
Proof. unfold title_case. benign_steps. Qed.

Lemma benign_generate_otpauth_uri (render : pyval -> string) (token : gmap string pyval) :
  benign (generate_otpauth_uri render token).
Proof.
  unfold generate_otpauth_uri. cbv zeta.
  apply benign_bind; [apply benign_strip_issuer_from_name|intros account].
  benign_steps.
Qed.

(** ** What the steps of the loop keep *)

Lemma no_new_records (l : list (level * message)) :
  exists l', l = l ++ l' /\ Forall no_error l'.
Proof. exists []. split; [by rewrite (right_id_L [] app)|constructor]. Qed.

Lemma orderly_ret (i : bool) {A} (a : A) : orderly i (retM a).
Proof.
  intros w. simpl. split; [done|]. split; [done|]. split; [apply no_new_records|].
  intros _. split; [done|]. split; [apply benign_ok|done].
Qed.

Lemma orderly_lift (i : bool) {A} (r : result A) : benign r -> orderly i (liftM r).
Proof.
  intros Hr w. simpl. split; [done|]. split; [done|]. split; [apply no_new_records|].
  intros _. by split.
Qed.

Lemma orderly_logger (i : bool) (l : level) (m : message) :
  l <> ERROR -> orderly i (logger l m).
Proof.
  intros Hl w. simpl. split; [done|]. split; [done|]. split.
  - exists [(l, m)]. split; [done|]. by constructor.
  - intros _. split; [done|]. split; [apply benign_ok|done].
Qed.

Lemma orderly_input : orderly true input.
Proof.
  intros w. unfold input. split; [by destruct (stdin w) as [|[]]|].
  split; [by destruct (stdin w) as [|[]]|].
  split; [|done]. destruct (stdin w) as [|[]]; apply no_new_records.
Qed.

Lemma orderly_bind (i : bool) {A B} (m : M A) (k : A -> M B) :
  orderly i m -> (forall a, orderly i (k a)) -> orderly i (bindM m k).
Proof.
  intros Hm Hk w. unfold bindM. destruct (Hm w) as (Hf & Hd & (l & Hl & Hn) & Hb).
  destruct (m w) as [w1 [a|e]] eqn:E; simpl in *.
  - destruct (Hk a w1) as (Hf' & Hd' & (l' & Hl' & Hn') & Hb').
    split; [congruence|]. split; [congruence|]. split.
    + exists (l ++ l'). rewrite Hl', Hl, app_assoc. split; [done|]. by apply Forall_app.
    + intros Hi. destruct (Hb Hi) as (Hs & _ & Hw). destruct (Hb' Hi) as (Hs' & He' & Hw').
      split; [congruence|]. split; [done|]. intros w'.
      specialize (Hw w'). destruct (m w') as [w2 [a'|e']]; simpl in Hw; [|done].
      injection Hw as ->. apply Hw'.
  - split; [done|]. split; [done|]. split; [by exists l|]. intros Hi.
    destruct (Hb Hi) as (Hs & He & Hw). split; [done|].
    split; [intros e' [= <-]; by apply He|]. intros w'.
    specialize (Hw w'). destruct (m w') as [w2 [a'|e']]; simpl in *; [done|].
    by injection Hw as ->.
Qed.

Lemma orderly_confirm_issuer (i : bool) (token : gmap string pyval) (issuer : pyval) :
  orderly i (confirm_issuer i token issuer).
Proof.
  unfold confirm_issuer. destruct i; [|apply orderly_ret].
  repeat (apply orderly_bind; [by apply orderly_logger|intros _]).
  apply orderly_bind; [apply orderly_input|intros line]. apply orderly_ret.
Qed.

Lemma orderly_process_dict (render : pyval -> string) (i : bool)
    (token : gmap string pyval) :
  orderly i (process_dict render i token).
Proof.
  unfold process_dict.
  apply orderly_bind; [apply orderly_lift, benign_resolve_issuer|intros issuer].
  apply orderly_bind; [apply orderly_lift, benign_title_case|intros issuer'].
  apply orderly_bind; [apply orderly_confirm_issuer|intros issuer''].
  cbv zeta.
  apply orderly_bind; [apply orderly_lift, benign_strip_issuer_from_name|intros account].
  apply orderly_bind.
  - destruct i; [|rewrite andb_false_r; apply orderly_ret].
    destruct (contains ": " account && true); [|apply orderly_ret].
    apply orderly_bind; [by apply orderly_logger|intros _].
    apply orderly_bind; [apply orderly_input|intros line]. apply orderly_ret.
  - intros renamed. apply orderly_bind; [by apply orderly_logger|intros _].
    apply orderly_lift, benign_generate_otpauth_uri.
Qed.

Lemma orderly_process_token (render : pyval -> string) (i : bool) (token : pyval) :
  orderly i (process_token render i token).
Proof.
  destruct token; try (by apply orderly_lift, benign_raise).
  apply orderly_process_dict.
Qed.

Lemma orderly_for_tokens (render : pyval -> string) (i : bool) (tokens : list pyval)
    (uris : list string) :
  orderly i (for_tokens render i tokens uris).
Proof.
  revert uris. induction tokens as [|token tokens IH]; intros uris; [apply orderly_ret|].
  simpl. apply orderly_bind; [apply orderly_process_token|intros uri]. apply IH.
Qed.

(** ** The driver as a whole *)

Lemma log_three (l0 l : list (level * message)) (a b c : level * message) :
  ((((l0 ++ l) ++ [a]) ++ [b]) ++ [c]) = l0 ++ l ++ [a; b; c].
Proof. by rewrite <- !app_assoc. Qed.

Lemma log_one (l0 l : list (level * message)) (a : level * message) :
  (l0 ++ l) ++ [a] = l0 ++ l ++ [a].
Proof. by rewrite <- app_assoc. Qed.

Ltac handled :=
  unfold logger; simpl;
  split; [reflexivity|]; split; [reflexivity|]; right; left; eexists (@nil (level * message)), _;
  split; [reflexivity|]; split; [reflexivity|]; split; [constructor|by left].

Lemma convert_outcome (render : pyval -> string) (json_loads : string -> string + pyval)
    (input_file output_file : string) (interactive : bool) (w : world) :
  let run := convert_tokens render json_loads input_file output_file interactive w in
  faults run.1 = faults w /\
  (interactive = false -> stdin run.1 = stdin w) /\
  ((exists uris l,
       run.2 = Ok tt /\
       files run.1 = <[output_file := join newline uris]> (files w) /\
       log run.1 = log w ++ l ++ [(INFO, MBlank); (INFO, MConverted (length uris));
                                   (INFO, MWritten output_file)] /\
       Forall no_error l)
   \/ (exists l m,
         run.2 = Ok tt /\
         log run.1 = log w ++ l ++ [(ERROR, m)] /\ Forall no_error l /\
         (files run.1 = files w \/
          exists uris n,
            files run.1 = <[output_file := take_chars n (join newline uris)]> (files w)))
   \/ (interactive = true /\ run.2 = Raise KeyboardInterrupt /\ files run.1 = files w /\
       exists l, log run.1 = log w ++ l /\ Forall no_error l)).
Proof.
  cbv zeta. unfold convert_tokens, convert_body, bindM, read_file, liftM.
  destruct (files w !! input_file) as [text|].
  2: { handled. }
  destruct (json_loads text) as [detail|data].
  { handled. }
  destruct data as [| | | | |d];
    try (handled).
  simpl py_get. cbv iota beta.
  destruct (truthy (dict_get d "decrypted_authenticator_tokens" (PList []))).
  2: { handled. }
  change (negb true) with false. cbv iota.
  destruct (py_iter (dict_get d "decrypted_authenticator_tokens" (PList [])))
    as [tokens|e] eqn:Hiter.
  2: { pose proof (benign_py_iter _ _ Hiter) as He.
       destruct e; try discriminate He;
         handled. }
  change (negb true) with false. cbv beta iota.
  pose proof (orderly_for_tokens render interactive tokens [] w)
    as (Hf & Hd & (l & Hl & Hn) & Hb).
  destruct (for_tokens render interactive tokens [] w) as [w1 [uris|e]]; simpl in Hf, Hd, Hl, Hb.
  - split; [unfold write_file, logger;
            by destruct (faults w1 !! output_file) as [[| |n]|]|].
    split; [intros Hi; unfold write_file, logger;
            destruct (faults w1 !! output_file) as [[| |n]|]; simpl; by destruct (Hb Hi)|].
    unfold write_file. rewrite Hd.
    destruct (faults w !! output_file) as [[| |n]|]; simpl.
    + right. left. exists l, (MNotFound input_file).
      split; [done|]. split; [rewrite Hl; apply log_one|]. split; [done|]. by left.
    + right. left. exists l, (MError OSError).
      split; [done|]. split; [rewrite Hl; apply log_one|]. split; [done|]. by left.
    + right. left. exists l, (MError OSError).
      split; [done|]. split; [rewrite Hl; apply log_one|]. split; [done|].
      right. exists uris, n. by rewrite Hf.
    + left. exists uris, l.
      split; [done|]. split; [by rewrite Hf|]. split; [|done].
      rewrite Hl. apply log_three.
  - destruct e.
    all: try (split; [done|]; split; [intros Hi; by destruct (Hb Hi)|]; right; left; simpl;
              eexists l, _; split; [done|]; split; [rewrite Hl; apply log_one|];
              split; [done|]; by left).
    destruct interactive.
    + split; [done|]. split; [done|]. right. right. split; [done|]. split; [done|]. split; [done|].
      by exists l.
    + destruct (Hb eq_refl) as (_ & He & _). by specialize (He _ eq_refl).
Qed.

(** How a run ends.  A run of [convert_tokens] ends in one of three ways:
    it returns, the output file holds the URIs joined by newlines and the log
    ends with the three closing lines, which count them; or it returns and
    the log ends with one error record; or, in interactive mode only, a
    keyboard interrupt comes out and no file has changed.  In each case the
    old log is kept and no other error record is added: a run that logs no
    error has written the whole output.  No path but the output path ever
    changes. *)
Theorem convert_outcomes (render : pyval -> string)
    (json_loads : string -> string + pyval) (input_file output_file : string)
    (interactive : bool) (w : world) :
  let run := convert_tokens render json_loads input_file output_file interactive w in
  ((exists uris l,
       run.2 = Ok tt /\
       files run.1 = <[output_file := join newline uris]> (files w) /\
       log run.1 = log w ++ l ++ [(INFO, MBlank); (INFO, MConverted (length uris));
                                   (INFO, MWritten output_file)] /\
       Forall no_error l)
   \/ (exists l m,
         run.2 = Ok tt /\
         log run.1 = log w ++ l ++ [(ERROR, m)] /\ Forall no_error l)
   \/ (interactive = true /\ run.2 = Raise KeyboardInterrupt /\ files run.1 = files w /\
       exists l, log run.1 = log w ++ l /\ Forall no_error l)) /\
  (forall path, path <> output_file -> files run.1 !! path = files w !! path).
Proof.
  cbv zeta.
  destruct (convert_outcome render json_loads input_file output_file interactive w)
    as (_ & _ & H). split.
  - destruct H as [H|[(l & m & Hr & Hl & Hn & _)|H]]; [by left| |by right; right].
    right. left. by exists l, m.
  - intros path Hp.
    destruct H as [(uris & l & _ & -> & _)
                  |[(l & m & _ & _ & _ & [->|(uris & n & ->)])|(_ & _ & -> & _)]];
      try done; by rewrite lookup_insert_ne.
Qed.

(** Batch mode returns normally and reads nothing: without [--interactive]
    every exception is caught by one of the handlers and the standard input
    is left as it was. *)
Theorem batch_mode_returns_and_reads_nothing (render : pyval -> string)
    (json_loads : string -> string + pyval) (input_file output_file : string)
    (w : world) :
  let run := convert_tokens render json_loads input_file output_file false w in
  run.2 = Ok tt /\ stdin run.1 = stdin w.
Proof.
  cbv zeta.
  destruct (convert_outcome render json_loads input_file output_file false w)
    as (_ & Hs & H). split; [|by apply Hs].
  by destruct H as [(uris & l & -> & _)|[(l & m & -> & _)|(? & _)]].
Qed.

Lemma token_typed_parts (token : gmap string pyval) :
  token_typed token = true ->
  resolver_typed token = true /\ is_text token "name" = true /\
  is_text token "decrypted_seed" = true /\ is_int token "digits" = true.
Proof.
  unfold token_typed. intros [[Hr Hs]%andb_true_iff Hd]%andb_true_iff.
  split; [done|]. split; [|done]. unfold resolver_typed in Hr.
  by apply andb_true_iff in Hr as [_ Hn].
Qed.

Lemma resolved_typed (token : gmap string pyval) :
  token_typed token = true -> builder_typed (resolved token) = true.
Proof.
  intros (_ & Hn & Hs & Hd)%token_typed_parts.
  unfold builder_typed, resolved, is_text, is_int in *.
  rewrite lookup_insert_eq. by rewrite !lookup_insert_ne, Hn, Hs, Hd.
Qed.

Lemma plain_token_typed (token : gmap string pyval) :
  plain_token token = true -> token_typed token = true.
Proof.
  unfold plain_token. intros H. do 6 (apply andb_true_iff in H as [H _]). exact H.
Qed.

Lemma plain_tokens_typed (tokens : list (gmap string pyval)) :
  Forall (fun token => plain_token token = true) tokens ->
  Forall (fun token => token_typed token = true) tokens.
Proof. intros H. eapply Forall_impl; [exact H|]. intros token. apply plain_token_typed. Qed.

Lemma process_dict_batch (render : pyval -> string) (token : gmap string pyval)
    (w : world) :
  token_typed token = true ->
  process_dict render false token w =
  (World (files w) (stdin w) (log w ++ [processed token]) (faults w), Ok (uri_of (resolved token))).
Proof.
  intros H. pose proof (token_typed_parts token H) as (Hr & Hn & _).
  unfold process_dict, bindM, liftM, confirm_issuer, retM.
  rewrite (resolve_issuer_chain token Hr), title_case_text. cbv zeta.
  fold (batch_issuer token). fold (resolved token).
  assert (Hi : dict_get (resolved token) "issuer" (PStr "Unknown") = PStr (batch_issuer token)).
  { unfold dict_get, resolved. by rewrite lookup_insert_eq. }
  assert (Hname : dict_get (resolved token) "name" (PStr "") = PStr (text token "name")).
  { unfold resolved, dict_get. rewrite lookup_insert_ne by done.
    apply (dict_get_text token "name" Hn). }
  rewrite Hi, Hname, strip_issuer_clean, andb_false_r. simpl.
  by rewrite (generate_typed render _ (resolved_typed token H)).
Qed.

Lemma for_tokens_batch (render : pyval -> string) (tokens : list (gmap string pyval))
    (uris : list string) (w : world) :
  Forall (fun token => token_typed token = true) tokens ->
  for_tokens render false (PDict <$> tokens) uris w =
  (World (files w) (stdin w) (log w ++ (processed <$> tokens)) (faults w),
   Ok (uris ++ ((fun token => uri_of (resolved token)) <$> tokens))).
Proof.
  intros H. revert uris w. induction H as [|token tokens Ht Hts IH]; intros uris w.
  - simpl. unfold retM. rewrite !(right_id_L [] app). by destruct w.
  - simpl. unfold bindM. rewrite (process_dict_batch render token w Ht), IH. simpl.
    by rewrite <- !app_assoc.
Qed.

(** The whole pipeline in batch mode.  For a document whose tokens are
    objects with ASCII text (or absent) fields and integer (or absent) digits
    that [str] converts, and an output path that can be written, the output
    file holds one URI per token, in the order of the document, separated by
    newlines with none at the end; each URI is the builder's for the token
    with the title-cased issuer of the chain written into it; the log gets
    one line per token and the three closing lines, with the number of
    tokens. *)
Theorem batch_output (render : pyval -> string) (json_loads : string -> string + pyval)
    (input_file output_file text : string) (d : gmap string pyval)
    (tokens : list (gmap string pyval)) (w : world) :
  files w !! input_file = Some text ->
  json_loads text = inr (PDict d) ->
  d !! "decrypted_authenticator_tokens" = Some (PList (PDict <$> tokens)) ->
  tokens <> [] ->
  Forall (fun token => plain_token token = true) tokens ->
  faults w !! output_file = None ->
  convert_tokens render json_loads input_file output_file false w =
  (World (<[output_file := join newline ((fun token => uri_of (resolved token)) <$> tokens)]>
            (files w))
         (stdin w)
         (log w ++ (processed <$> tokens) ++
          [(INFO, MBlank); (INFO, MConverted (length tokens)); (INFO, MWritten output_file)])
         (faults w),
   Ok tt).
Proof.
  intros Hf Hl Hd Hne Ht%plain_tokens_typed Hw.
  unfold convert_tokens, convert_body, bindM, read_file, liftM.
  assert (Hg : dict_get d "decrypted_authenticator_tokens" (PList [])
               = PList (PDict <$> tokens)) by (unfold dict_get; by rewrite Hd).
  rewrite Hf, Hl. simpl py_get. rewrite Hg.
  assert (Htr : truthy (PList (PDict <$> tokens)) = true) by by destruct tokens.
  rewrite Htr. change (negb true) with false. cbn [py_iter]. cbv beta iota.
  rewrite (for_tokens_batch render tokens [] w Ht). unfold write_file.
  cbn [faults]. rewrite Hw. simpl.
  unfold newline. rewrite length_fmap. by rewrite <- !app_assoc.
Qed.

Lemma convert_body_batch (render : pyval -> string)
    (json_loads : string -> string + pyval) (input_file output_file text : string)
    (d : gmap string pyval) (tokens : list (gmap string pyval)) (w : world) :
  files w !! input_file = Some text ->
  json_loads text = inr (PDict d) ->
  d !! "decrypted_authenticator_tokens" = Some (PList (PDict <$> tokens)) ->
  tokens <> [] ->
  Forall (fun token => token_typed token = true) tokens ->
  convert_body render json_loads input_file output_file false w =
  (write_file output_file
     (join newline ((fun token => uri_of (resolved token)) <$> tokens)) ;;;
   logger INFO MBlank ;;;
   logger INFO (MConverted (length tokens)) ;;;
   logger INFO (MWritten output_file))
    (World (files w) (stdin w) (log w ++ (processed <$> tokens)) (faults w)).
Proof.
  intros Hf Hl Hd Hne Ht. unfold convert_body. unfold bindM at 1 2 3, read_file, liftM.
  assert (Hg : dict_get d "decrypted_authenticator_tokens" (PList [])
               = PList (PDict <$> tokens)) by (unfold dict_get; by rewrite Hd).
  rewrite Hf, Hl. simpl py_get. rewrite Hg.
  assert (Htr : truthy (PList (PDict <$> tokens)) = true) by by destruct tokens.
  rewrite Htr. change (negb true) with false. cbn [py_iter]. cbv beta iota.
  unfold bindM at 1 2. rewrite (for_tokens_batch render tokens [] w Ht).
  change ([] ++ ?l) with l. by rewrite length_fmap.
Qed.

(** An output path that cannot be opened.  The tokens are processed and
    logged all the same, then the failure is logged and no file changes.
    When it is the directory of the output path that is missing, the error
    recorded is the one for a missing input file: the handler of line 187
    catches the [FileNotFoundError] of line 180 as well. *)
Theorem failed_open_writes_nothing (render : pyval -> string)
    (json_loads : string -> string + pyval) (input_file output_file text : string)
    (d : gmap string pyval) (tokens : list (gmap string pyval)) (w : world) :
  files w !! input_file = Some text ->
  json_loads text = inr (PDict d) ->
  d !! "decrypted_authenticator_tokens" = Some (PList (PDict <$> tokens)) ->
  tokens <> [] ->
  Forall (fun token => plain_token token = true) tokens ->
  (faults w !! output_file = Some NoDirectory ->
   convert_tokens render json_loads input_file output_file false w =
   (World (files w) (stdin w)
      (log w ++ (processed <$> tokens) ++ [(ERROR, MNotFound input_file)]) (faults w),
    Ok tt)) /\
  (faults w !! output_file = Some NotWritable ->
   convert_tokens render json_loads input_file output_file false w =
   (World (files w) (stdin w)
      (log w ++ (processed <$> tokens) ++ [(ERROR, MError OSError)]) (faults w),
    Ok tt)).
Proof.
  intros Hf Hl Hd Hne Ht%plain_tokens_typed.
  split; intros Hw; unfold convert_tokens;
    rewrite (convert_body_batch render json_loads input_file output_file text d tokens w
               Hf Hl Hd Hne Ht);
    unfold bindM at 1, write_file; cbn [faults]; rewrite Hw;
    unfold logger; simpl; by rewrite <- app_assoc.
Qed.




Lemma first_prompt_unanswered (render : pyval -> string) (token : gmap string pyval)
    (w : world) :
  resolver_typed token = true ->
  forall e keys,
    (stdin w = [] /\ keys = [] /\ e = EOFError) \/
    (stdin w = CtrlC :: keys /\ e = KeyboardInterrupt) ->
    process_dict render true token w =
    (World (files w) keys
       (log w ++ [(INFO, MBlank); (WARN, MNoIssuer (dict_get token "name" PNone));
                  (INFO, MProposed (PStr (batch_issuer token)))]) (faults w),
     Raise e).
Proof.
  intros Hr e keys Hk. unfold process_dict. unfold bindM at 1 2 3, liftM at 1 2.
  rewrite (resolve_issuer_chain token Hr), title_case_text.
  fold (batch_issuer token). unfold confirm_issuer, bindM, logger, input, retM. simpl.
  rewrite <- !app_assoc. simpl.
  by destruct Hk as [(-> & -> & ->)|(-> & ->)].
Qed.

Lemma first_token_unanswered (render : pyval -> string)
    (json_loads : string -> string + pyval) (input_file output_file text : string)
    (d : gmap string pyval) (token : gmap string pyval) (rest : list pyval) (w : world) :
  files w !! input_file = Some text ->
  json_loads text = inr (PDict d) ->
  d !! "decrypted_authenticator_tokens" = Some (PList (PDict token :: rest)) ->
  resolver_typed token = true ->
  forall e keys,
    (stdin w = [] /\ keys = [] /\ e = EOFError) \/
    (stdin w = CtrlC :: keys /\ e = KeyboardInterrupt) ->
    convert_body render json_loads input_file output_file true w =
    (World (files w) keys
       (log w ++ [(INFO, MBlank); (WARN, MNoIssuer (dict_get token "name" PNone));
                  (INFO, MProposed (PStr (batch_issuer token)))]) (faults w),
     Raise e).
Proof.
  intros Hf Hl Hd Hr e keys Hk.
  unfold convert_body, bindM, read_file, liftM.
  assert (Hg : dict_get d "decrypted_authenticator_tokens" (PList [])
               = PList (PDict token :: rest)) by (unfold dict_get; by rewrite Hd).
  rewrite Hf, Hl. simpl py_get. rewrite Hg. simpl.
  unfold bindM. by rewrite (first_prompt_unanswered render token w Hr e keys Hk).
Qed.

(** Interactive mode with no line left to read: the end of input at the
    first prompt is caught by the generic handler; the driver logs the error
    after the three lines of the prompt and writes no file. *)
Theorem exhausted_input_aborts (render : pyval -> string)
    (json_loads : string -> string + pyval) (input_file output_file text : string)
    (d : gmap string pyval) (token : gmap string pyval) (rest : list pyval) (w : world) :
  files w !! input_file = Some text ->
  json_loads text = inr (PDict d) ->
  d !! "decrypted_authenticator_tokens" = Some (PList (PDict token :: rest)) ->
  resolver_typed token = true ->
  stdin w = [] ->
  convert_tokens render json_loads input_file output_file true w =
  (World (files w) []
     (log w ++ [(INFO, MBlank); (WARN, MNoIssuer (dict_get token "name" PNone));
                (INFO, MProposed (PStr (batch_issuer token)));
                (ERROR, MError EOFError)]) (faults w),
   Ok tt).
Proof.
  intros Hf Hl Hd Hr Hs. unfold convert_tokens.
  rewrite (first_token_unanswered render json_loads input_file output_file text d token
             rest w Hf Hl Hd Hr EOFError []) by (left; done).
  unfold logger. simpl. by rewrite <- app_assoc.
Qed.

(** A keyboard interrupt at the first prompt is not an [Exception]: no
    handler of [convert_tokens] catches it, it reaches the caller, no error
    is logged and no file is written. *)
Theorem interrupt_is_not_caught (render : pyval -> string)
    (json_loads : string -> string + pyval) (input_file output_file text : string)
    (d : gmap string pyval) (token : gmap string pyval) (rest : list pyval)
    (keys : list keyboard) (w : world) :
  files w !! input_file = Some text ->
  json_loads text = inr (PDict d) ->
  d !! "decrypted_authenticator_tokens" = Some (PList (PDict token :: rest)) ->
  resolver_typed token = true ->
  stdin w = CtrlC :: keys ->
  convert_tokens render json_loads input_file output_file true w =
  (World (files w) keys
     (log w ++ [(INFO, MBlank); (WARN, MNoIssuer (dict_get token "name" PNone));
                (INFO, MProposed (PStr (batch_issuer token)))]) (faults w),
   Raise KeyboardInterrupt).
Proof.
  intros Hf Hl Hd Hr Hs. unfold convert_tokens.
  by rewrite (first_token_unanswered render json_loads input_file output_file text d token
                rest w Hf Hl Hd Hr KeyboardInterrupt keys) by (right; done).
Qed.

Lemma other_files_untouched (render : pyval -> string)
    (json_loads : string -> string + pyval) (input_file output_file : string)
    (interactive : bool) (w : world) :
  files (convert_tokens render json_loads input_file output_file interactive w).1 = files w
  \/ exists c,
       files (convert_tokens render json_loads input_file output_file interactive w).1
       = <[output_file := c]> (files w).
Proof.
  destruct (convert_outcome render json_loads input_file output_file interactive w)
    as (_ & _ & [(uris & l & _ & H & _)
                |[(l & m & _ & _ & _ & [H|(uris & n & H)])|(_ & _ & H & _)]]); eauto.
Qed.

Lemma convert_batch_files (render : pyval -> string)
    (json_loads : string -> string + pyval) (input_file output_file : string)
    (w w0 : world) :
  files w0 !! input_file = files w !! input_file ->
  faults w0 = faults w ->
  (files (convert_tokens render json_loads input_file output_file false w).1 = files w /\
   files (convert_tokens render json_loads input_file output_file false w0).1 = files w0)
  \/ exists c,
       files (convert_tokens render json_loads input_file output_file false w).1
       = <[output_file := c]> (files w) /\
       files (convert_tokens render json_loads input_file output_file false w0).1
       = <[output_file := c]> (files w0).
Proof.
  intros Hsame Hfaults. unfold convert_tokens, convert_body, bindM, read_file, liftM.
  rewrite Hsame. destruct (files w !! input_file) as [text|]; [|by left].
  destruct (json_loads text) as [detail|data]; [by left|].
  destruct data as [| | | | |d]; try by left.
  simpl py_get. cbv iota beta.
  destruct (truthy (dict_get d "decrypted_authenticator_tokens" (PList []))); [|by left].
  change (negb true) with false. cbv iota.
  destruct (py_iter (dict_get d "decrypted_authenticator_tokens" (PList [])))
    as [tokens|e] eqn:Hiter.
  2: { left. pose proof (benign_py_iter _ _ Hiter) as He.
       by destruct e; try discriminate He. }
  cbv beta iota.
  pose proof (orderly_for_tokens render false tokens [] w) as (Hf & Hd & _ & Hb).
  pose proof (orderly_for_tokens render false tokens [] w0) as (Hf0 & Hd0 & _ & _).
  destruct (Hb eq_refl) as (_ & He & Hw). specialize (Hw w0).
  destruct (for_tokens render false tokens [] w) as [w1 [uris|e]];
    destruct (for_tokens render false tokens [] w0) as [w2 [uris0|e0]];
    simpl in Hf, Hd, Hf0, Hd0, He, Hw; try discriminate Hw.
  - injection Hw as ->. unfold write_file. rewrite Hd, Hd0, Hfaults.
    destruct (faults w !! output_file) as [[| |n]|]; simpl.
    + by left.
    + by left.
    + right. eexists. by rewrite Hf, Hf0.
    + right. eexists. by rewrite Hf, Hf0.
  - injection Hw as ->. left. specialize (He _ eq_refl).
    by destruct e; try discriminate He.
Qed.

(** Running the batch again changes nothing more: when the output path is
    not the input path, a second run in batch mode leaves every file as the
    first run left it. *)
Theorem rerun_writes_the_same (render : pyval -> string)
    (json_loads : string -> string + pyval) (input_file output_file : string)
    (w : world) :
  input_file <> output_file ->
  let once := (convert_tokens render json_loads input_file output_file false w).1 in
  files (convert_tokens render json_loads input_file output_file false once).1
  = files once.
Proof.
  intros Hne. cbv zeta.
  set (once := (convert_tokens render json_loads input_file output_file false w).1).
  assert (Hin : files once !! input_file = files w !! input_file).
  { destruct (other_files_untouched render json_loads input_file output_file false w)
      as [H|[c H]]; fold once in H; rewrite H; [done|]. by rewrite lookup_insert_ne. }
  assert (Hfaults : faults once = faults w).
  { by destruct (convert_outcome render json_loads input_file output_file false w). }
  destruct (convert_batch_files render json_loads input_file output_file w once Hin Hfaults)
    as [[_ H]|(c & H1 & H2)]; [done|].
  fold once in H1. by rewrite H2, H1, insert_insert_eq.
Qed.

Lemma issuer_written_typed (token : gmap string pyval) (issuer : string) :
  token_typed token = true -> builder_typed (<["issuer" := PStr issuer]> token) = true.
Proof.
  intros (_ & Hn & Hs & Hd)%token_typed_parts.
  unfold builder_typed, is_text, is_int in *.
  rewrite lookup_insert_eq. by rewrite !lookup_insert_ne, Hn, Hs, Hd.
Qed.

Lemma name_written_typed (token : gmap string pyval) (name : string) :
  builder_typed token = true -> builder_typed (<["name" := PStr name]> token) = true.
Proof.
  unfold builder_typed, is_text, is_int.
  rewrite lookup_insert_eq. rewrite !lookup_insert_ne by done.
  intros [[[Ha _]%andb_true_iff Hc]%andb_true_iff Hd]%andb_true_iff.
  by rewrite Ha, Hc, Hd.
Qed.

(** One token in interactive mode, as a function of the typed lines, the
    token and the lines being ASCII text.  The
    issuer is the first line trimmed, or the proposal if that is blank.  If
    the name cleaned for this issuer still holds a colon and a space, a
    second line is read, and the name is that line trimmed unless it is
    blank; otherwise the second line is left unread.  The URI is the
    builder's for the token with this issuer and this name. *)
Theorem interactive_token (render : pyval -> string) (token : gmap string pyval)
    (w : world) (line1 line2 : string) (keys : list keyboard) :
  plain_token token = true ->
  ascii_text line1 = true -> ascii_text line2 = true ->
  stdin w = Line line1 :: Line line2 :: keys ->
  let issuer := chosen_issuer token line1 in
  let account := clean_name issuer (text token "name") in
  let token1 := <["issuer" := PStr issuer]> token in
  process_dict render true token w =
  if contains ": " account then
    (World (files w) keys
       (log w ++ prompt_records token ++
        [(WARN, MMayContain (PStr (text token "name")));
         (INFO, MProcessed (PStr issuer)
                  (if nonempty (strip line2) then strip line2 else account))]) (faults w),
     Ok (uri_of (if nonempty (strip line2)
                 then <["name" := PStr (strip line2)]> token1 else token1)))
  else
    (World (files w) (Line line2 :: keys)
       (log w ++ prompt_records token ++ [(INFO, MProcessed (PStr issuer) account)]) (faults w),
     Ok (uri_of token1)).
Proof.
  intros H%plain_token_typed _ _ Hs. cbv zeta.
  pose proof (token_typed_parts token H) as (Hr & Hn & _).
  unfold process_dict. unfold bindM at 1 2 3, liftM at 1 2.
  rewrite (resolve_issuer_chain token Hr), title_case_text.
  fold (batch_issuer token). unfold confirm_issuer.
  unfold bindM at 1 2 3 4, logger at 1 2 3, input at 1, retM at 1. simpl stdin.
  rewrite Hs. cbv beta iota.
  assert (Hc : (if negb (String.eqb (strip line1) "") then PStr (strip line1)
                else PStr (batch_issuer token)) = PStr (chosen_issuer token line1)).
  { unfold chosen_issuer, nonempty. by destruct (negb _). }
  rewrite Hc. clear Hc. set (issuer := chosen_issuer token line1).
  assert (Hi : dict_get (<["issuer" := PStr issuer]> token) "issuer" (PStr "Unknown")
               = PStr issuer) by (unfold dict_get; by rewrite lookup_insert_eq).
  assert (Hname : dict_get (<["issuer" := PStr issuer]> token) "name" (PStr "")
                  = PStr (text token "name")).
  { unfold dict_get. rewrite lookup_insert_ne by done. apply (dict_get_text token "name" Hn). }
  assert (Hname' : dict_get (<["issuer" := PStr issuer]> token) "name" PNone
                   = PStr (text token "name") \/ text token "name" = "").
  { unfold dict_get, text. rewrite lookup_insert_ne by done.
    unfold is_text in Hn. destruct (token !! "name") as [[]|]; try done; eauto. }
  unfold bindM at 1, liftM at 1. rewrite Hi, Hname, strip_issuer_clean.
  rewrite andb_true_r.
  destruct (contains ": " (clean_name issuer (text token "name"))) eqn:Hcont.
  - destruct Hname' as [Hname'|Hempty].
    2: { rewrite Hempty in Hcont. unfold clean_name in Hcont.
         change (nonempty "") with false in Hcont. by vm_compute in Hcont. }
    unfold bindM, logger, input, retM, liftM. simpl. rewrite Hname'.
    unfold nonempty. destruct (String.eqb (strip line2) ""); simpl.
    + rewrite (generate_typed render _ (issuer_written_typed token issuer H)).
      unfold prompt_records. by rewrite <- !app_assoc.
    + rewrite (generate_typed render _
                 (name_written_typed _ _ (issuer_written_typed token issuer H))).
      unfold prompt_records. by rewrite <- !app_assoc.
  - unfold bindM, logger, retM, liftM. simpl.
    rewrite (generate_typed render _ (issuer_written_typed token issuer H)).
    unfold prompt_records. by rewrite <- !app_assoc.
Qed.

(** ** Instances of the further properties *)

Lemma cleaned_name_is_trimmed_witness :
  strip_issuer_from_name (PStr "Acme: jsmith ") (PStr "Acme") = Ok "jsmith" /\
  strip "jsmith" = "jsmith".
Proof.
  split; [by vm_compute|].
  apply (cleaned_name_is_trimmed (PStr "Acme: jsmith ") (PStr "Acme")). by vm_compute.
Defined.

Lemma cleaned_name_is_part_of_name_witness :
  strip_issuer_from_name (PStr "Acme: jsmith ") (PStr "Acme") = Ok "jsmith" /\
  exists a b, "Acme: jsmith " = a +:+ "jsmith" +:+ b.
Proof.
  split; [by vm_compute|].
  apply (cleaned_name_is_part_of_name "Acme: jsmith " (PStr "Acme")). by vm_compute.
Defined.

Lemma issuer_needs_separator_witness :
  "git" <> "" /\ ci_equal "Git" "git" = true /\ is_separator "H" = false /\
  strip_issuer_from_name (PStr ("Git" +:+ "Hub: jsmith")) (PStr "git")
  = Ok (strip ("Git" +:+ "Hub: jsmith")).
Proof.
  split; [done|]. split; [by vm_compute|]. split; [by vm_compute|].
  apply issuer_needs_separator; [done|by vm_compute..|].
  right. exists "H"%char, "ub: jsmith". split; by vm_compute.
Defined.

Lemma uri_label_is_encoded_witness :
  generate_otpauth_uri render_none acme_token =
    Ok "otpauth://totp/Acme%3Ajsmith?secret=SECRET123&issuer=Acme&digits=6&algorithm=SHA1" /\
  exists label,
    "otpauth://totp/Acme%3Ajsmith?secret=SECRET123&issuer=Acme&digits=6&algorithm=SHA1" =
    "otpauth://totp/" +:+ label +:+ "?" +:+ join "&" (params_of render_none acme_token) /\
    all_chars encoded_char label = true.
Proof.
  split; [by vm_compute|].
  apply (uri_label_is_encoded render_none acme_token). by vm_compute.
Defined.

Lemma issuer_empty_only_for_blank_name_witness :
  resolver_typed blank_token = true /\ strip "  " = "" /\
  resolve_issuer blank_token = Ok (PStr "").
Proof.
  split; [by vm_compute|]. split; [by vm_compute|].
  apply (issuer_empty_only_for_blank_name blank_token); by vm_compute.
Defined.

Lemma inferred_issuer_is_stripped_witness :
  resolver_typed github_token = true /\ is_word "github" = true /\
  resolve_issuer github_token ≫= title_case = Ok (PStr (capitalize_word "github")) /\
  strip_issuer_from_name (PStr ("github" +:+ String ":" "bob"))
    (PStr (capitalize_word "github")) = Ok (strip "bob").
Proof.
  split; [by vm_compute|]. split; [by vm_compute|].
  apply (inferred_issuer_is_stripped github_token "github" "bob"); by vm_compute.
Defined.

Lemma falsy_name_raises_witness :
  null_name_token !! "name" = Some PNone /\ truthy PNone = false /\
  generate_otpauth_uri render_none null_name_token = Raise AttributeError.
Proof.
  split; [by vm_compute|]. split; [done|].
  by apply (falsy_name_raises render_none null_name_token PNone); [vm_compute|..].
Defined.

Lemma non_text_issuer_raises_witness :
  numeric_issuer_token !! "issuer" = Some (PInt 5) /\ truthy (PInt 5) = true /\
  generate_otpauth_uri render_none numeric_issuer_token = Raise TypeError.
Proof.
  split; [by vm_compute|]. split; [done|].
  by apply (non_text_issuer_raises render_none numeric_issuer_token (PInt 5));
    [vm_compute|..].
Defined.

Lemma convert_outcomes_witness :
  "tokens.json" <> "out.txt" /\
  files (convert_tokens render_none
           (loads_document (tokens_document [PDict acme_token; PDict jsmith_token]))
           "tokens.json" "out.txt" false broken_write_world).1 !! "tokens.json"
  = files broken_write_world !! "tokens.json".
Proof.
  split; [done|].
  by apply (convert_outcomes render_none
              (loads_document (tokens_document [PDict acme_token; PDict jsmith_token]))
              "tokens.json" "out.txt" false broken_write_world).
Defined.

Lemma batch_output_witness :
  Forall (fun token => plain_token token = true) [acme_token; jsmith_token] /\
  faults batch_world !! "out.txt" = None /\
  convert_tokens render_none
    (loads_document (tokens_document (PDict <$> [acme_token; jsmith_token])))
    "tokens.json" "out.txt" false batch_world =
  (World (<["out.txt" := join newline
              ((fun token => uri_of (resolved token)) <$> [acme_token; jsmith_token])]>
            (files batch_world))
         (stdin batch_world)
         (log batch_world ++ (processed <$> [acme_token; jsmith_token]) ++
          [(INFO, MBlank); (INFO, MConverted 2); (INFO, MWritten "out.txt")])
         (faults batch_world),
   Ok tt).
Proof.
  assert (H : Forall (fun token => plain_token token = true) [acme_token; jsmith_token]).
  { repeat constructor; by vm_compute. }
  split; [exact H|]. split; [done|].
  by apply (batch_output render_none _ "tokens.json" "out.txt" "export"
              {["decrypted_authenticator_tokens" := PList (PDict <$> [acme_token; jsmith_token])]}
              [acme_token; jsmith_token] batch_world).
Defined.

Lemma failed_open_writes_nothing_witness :
  plain_token jsmith_token = true /\
  faults missing_directory_world !! "out/uris.txt" = Some NoDirectory /\
  convert_tokens render_none (loads_document (tokens_document (PDict <$> [jsmith_token])))
    "tokens.json" "out/uris.txt" false missing_directory_world =
  (World (files missing_directory_world) []
     [(INFO, MProcessed (PStr "Jsmith") "jsmith"); (ERROR, MNotFound "tokens.json")]
     (faults missing_directory_world),
   Ok tt) /\
  faults denied_world !! "out.txt" = Some NotWritable /\
  convert_tokens render_none (loads_document (tokens_document (PDict <$> [jsmith_token])))
    "tokens.json" "out.txt" false denied_world =
  (World (files denied_world) []
     [(INFO, MProcessed (PStr "Jsmith") "jsmith"); (ERROR, MError OSError)]
     (faults denied_world),
   Ok tt).
Proof.
  assert (H : Forall (fun token => plain_token token = true) [jsmith_token]).
  { repeat constructor; by vm_compute. }
  split; [by vm_compute|]. split; [done|]. split; [|split; [done|]].
  - by apply (failed_open_writes_nothing render_none _ "tokens.json" "out/uris.txt" "export"
                {["decrypted_authenticator_tokens" := PList (PDict <$> [jsmith_token])]}
                [jsmith_token] missing_directory_world).
  - by apply (failed_open_writes_nothing render_none _ "tokens.json" "out.txt" "export"
                {["decrypted_authenticator_tokens" := PList (PDict <$> [jsmith_token])]}
                [jsmith_token] denied_world).
Defined.



Lemma exhausted_input_aborts_witness :
  stdin batch_world = [] /\ resolver_typed jsmith_token = true /\
  convert_tokens render_none (loads_document (tokens_document [PDict jsmith_token]))
    "tokens.json" "out.txt" true batch_world =
  (World (files batch_world) []
     (log batch_world ++
      [(INFO, MBlank); (WARN, MNoIssuer (dict_get jsmith_token "name" PNone));
       (INFO, MProposed (PStr (batch_issuer jsmith_token)));
       (ERROR, MError EOFError)]) (faults batch_world),
   Ok tt).
Proof.
  split; [done|]. split; [by vm_compute|].
  by apply (exhausted_input_aborts render_none _ "tokens.json" "out.txt" "export"
              {["decrypted_authenticator_tokens" := PList [PDict jsmith_token]]}
              jsmith_token [] batch_world).
Defined.

Lemma interrupt_is_not_caught_witness :
  stdin interrupted_world = [CtrlC; Line "Other"] /\
  convert_tokens render_none (loads_document (tokens_document [PDict jsmith_token]))
    "tokens.json" "out.txt" true interrupted_world =
  (World (files interrupted_world) [Line "Other"]
     (log interrupted_world ++
      [(INFO, MBlank); (WARN, MNoIssuer (dict_get jsmith_token "name" PNone));
       (INFO, MProposed (PStr (batch_issuer jsmith_token)))]) (faults interrupted_world),
   Raise KeyboardInterrupt).
Proof.
  split; [done|].
  by apply (interrupt_is_not_caught render_none _ "tokens.json" "out.txt" "export"
              {["decrypted_authenticator_tokens" := PList [PDict jsmith_token]]}
              jsmith_token [] [Line "Other"] interrupted_world).
Defined.

Lemma rerun_writes_the_same_witness :
  "tokens.json" <> "out.txt" /\
  let once :=
    (convert_tokens render_none (loads_document (tokens_document [PDict acme_token]))
       "tokens.json" "out.txt" false batch_world).1 in
  files (convert_tokens render_none (loads_document (tokens_document [PDict acme_token]))
           "tokens.json" "out.txt" false once).1 = files once.
Proof.
  split; [done|].
  by apply (rerun_writes_the_same render_none
              (loads_document (tokens_document [PDict acme_token]))
              "tokens.json" "out.txt" batch_world).
Defined.

Lemma interactive_token_witness :
  plain_token jsmith_token = true /\
  ascii_text " other bank " = true /\
  stdin two_lines_world = [Line " other bank "; Line ""] /\
  chosen_issuer jsmith_token " other bank " = "other bank" /\
  (process_dict render_none true jsmith_token two_lines_world).2 =
  Ok (uri_of (<["issuer" := PStr "other bank"]> jsmith_token)).
Proof.
  split; [by vm_compute|]. split; [by vm_compute|]. split; [done|].
  split; [by vm_compute|].
  rewrite (interactive_token render_none jsmith_token two_lines_world
             " other bank " "" []) by (by vm_compute).
  by vm_compute.
Defined.

Lemma title_case_keeps_the_words_witness :
  ascii_text "my  bank" = true /\
  exists r,
    title_case (PStr "my  bank") = Ok (PStr r) /\
    split_ws r = capitalize_word <$> split_ws "my  bank" /\
    length (split_ws r) = length (split_ws "my  bank") /\
    Forall (fun w => starts_lower w = false) (split_ws r).
Proof.
  split; [by vm_compute|]. apply (title_case_keeps_the_words "my  bank"). by vm_compute.
Defined.
